(** * Paper-Reader-Tools: the semantic retrieval core

    A shallow embedding of [src/paper_reader_tools/vector_search.py]
    (class [VectorStore]: [_create_tables], [add_embedding], [search],
    [_cosine_similarity]) together with the properties its
    specification states about it.

    Conventions of the embedding:
    - a Python [str] is a [list ascii]; [len] is [Z.of_nat (length _)];
    - a NumPy / Python float is a primitive binary64 [float];
    - code that may raise returns an [outcome]; [try ... except Exception]
      is [try_except];
    - the SQLite table [embeddings] is the list of its rows in rowid
      order ([paper_id INTEGER PRIMARY KEY] is the rowid);
    - [CURRENT_TIMESTAMP] and the sentence-embedding model are inputs. *)

From Stdlib Require Import ZArith List Bool Lia Ascii Floats.
From Stdlib Require Import Sorting.Sorted Sorting.Permutation.
Import ListNotations.

Set Implicit Arguments.

(** ** Python runtime *)

Module Py.

(** The exceptions the modelled code can meet. All derive from
    [Exception], so [except Exception] catches them. *)
Inductive exn : Set :=
| JSONDecodeError   (* json.loads on text that is not JSON *)
| ValueError        (* np.dot on 1-D arrays of different sizes *)
| OverflowError     (* sqlite3 given an int that is not a 64-bit INTEGER *)
| RuntimeError.     (* the embedding model could not be loaded *)

Inductive outcome (A : Type) : Type :=
| Return (a : A)
| Raise (e : exn).

Arguments Return {A} a.
Arguments Raise {A} e.

Definition bind {A B} (c : outcome A) (k : A -> outcome B) : outcome B :=
  match c with
  | Return a => k a
  | Raise e => Raise e
  end.

(** [try: c  except Exception as e: ...; h] *)
Definition try_except {A} (c : outcome A) (h : exn -> outcome A) : outcome A :=
  match c with
  | Return a => Return a
  | Raise e => h e
  end.

(** A [for] loop that appends one computed item per element and stops
    at the first exception. *)
Fixpoint for_each {A B} (f : A -> outcome B) (l : list A) : outcome (list B) :=
  match l with
  | [] => Return []
  | x :: l' =>
      bind (f x) (fun y => bind (for_each f l') (fun ys => Return (y :: ys)))
  end.

Definition str := list ascii.

Definition len {A} (s : list A) : Z := Z.of_nat (length s).

(** Truth value of a sequence: non-empty. *)
Definition truthy {A} (s : list A) : bool :=
  match s with [] => false | _ :: _ => true end.

(** Bound adjustment of a slice with step 1 (CPython's
    [PySlice_AdjustIndices]): a negative bound counts from the end, and
    every bound is clamped to [0 .. length]. *)
Definition adjust_index (length i : Z) : Z :=
  if (i <? 0)%Z
  then (if (i + length <? 0)%Z then 0%Z else (i + length)%Z)
  else (if (length <=? i)%Z then length else i).

(** [s[start:stop]]; [None] is an omitted bound. *)
Definition slice {A} (s : list A) (start stop : option Z) : list A :=
  let n := len s in
  let lo := match start with None => 0%Z | Some i => adjust_index n i end in
  let hi := match stop with None => n | Some i => adjust_index n i end in
  firstn (Z.to_nat (hi - lo)) (skipn (Z.to_nat lo) s).

(** [max(a, b)] on floats: the builtin keeps its first argument and
    replaces it only by an argument that compares strictly greater. *)
Definition max (a b : float) : float :=
  if (a <? b)%float then b else a.

End Py.

Import Py.

Notation "x <- c ;; k" := (Py.bind c (fun x => k))
  (at level 61, c at next level, right associativity).

(** ** NumPy *)

Module Np.

(** [np.dot(a, b)] on 1-D arrays: the sum of the products, accumulated
    from the left; arrays of different sizes are rejected with
    [ValueError] (shapes not aligned). The query array is float32 in
    the source; its entries are taken as the doubles they widen to, and
    every operation is carried out in binary64. *)
Definition dot_sum (a b : list float) : float :=
  fold_left (fun acc xy => (acc + fst xy * snd xy)%float) (combine a b) 0%float.

Definition dot (a b : list float) : outcome float :=
  if Nat.eqb (length a) (length b) then Return (dot_sum a b) else Raise ValueError.

(** [np.linalg.norm(a)] on a 1-D real array: [sqrt(a.dot(a))]. *)
Definition norm (a : list float) : float := sqrt (dot_sum a a).

End Np.

(** ** Content sampling ([add_embedding], the [content_sample] block) *)

Definition space : str := [" "%char].

Definition content_sample (content : str) : str :=
  if (5000 <? len content)%Z then
    slice content None (Some 1500%Z) ++ space
      ++ slice content (Some (len content / 2 - 750)%Z) (Some (len content / 2 + 750)%Z)
      ++ space
      ++ slice content (Some (-1500)%Z) None
  else content.

(** ** The [embeddings] table ([_create_tables] and the SQL statements) *)

Module Sqlite.

(** A [TEXT] cell of the table, by what the reader makes of it:
    [Null] is [NULL] or the empty text (falsy, never parsed);
    [Json v] is the text [json.dumps(v)] of a list of floats, which
    [json.loads] reads as [v]; [Garbled] is a non-empty text that is
    not JSON (truncated or corrupt), on which [json.loads] raises.
    These are the cells [add_embedding] writes and their corruptions.
    A text that is JSON for something else than a list of numbers
    (a bare number, a string, an object), which only another program
    could have written, is not represented: the statements below say
    nothing about tables that hold one. *)
Inductive cell : Set :=
| Null
| Json (v : list float)
| Garbled.

(** One row of
    [embeddings(paper_id INTEGER PRIMARY KEY, title_vector TEXT,
                content_vector TEXT,
                created_at TIMESTAMP DEFAULT CURRENT_TIMESTAMP)]. *)
Record row : Set := mkRow {
  paper_id : Z;
  title_vector : cell;
  content_vector : cell;
  created_at : Z
}.

Definition table := list row.

(** [CREATE TABLE IF NOT EXISTS embeddings (...)]: a missing table is
    created empty, an existing one is left as it is. *)
Definition create_table (file : option table) : table :=
  match file with
  | None => []
  | Some t => t
  end.

(** Conflict resolution [REPLACE]: the rows that clash with the new
    primary key are deleted before the insert. *)
Definition delete_conflicts (pid : Z) (t : table) : table :=
  filter (fun r => negb (paper_id r =? pid)%Z) t.

(** The new row takes its place in rowid order. *)
Fixpoint insert_row (r : row) (t : table) : table :=
  match t with
  | [] => [r]
  | r' :: t' =>
      if (paper_id r <? paper_id r')%Z then r :: t else r' :: insert_row r t'
  end.

(** [INSERT OR REPLACE INTO embeddings (paper_id, title_vector,
    content_vector) VALUES (?, ?, ?)] run when the clock reads [now]:
    [created_at] is not among the columns, so it takes its default. *)
Definition insert_or_replace (now pid : Z) (tv cv : cell) (t : table) : table :=
  insert_row (mkRow pid tv cv now) (delete_conflicts pid t).

(** The integers sqlite3 accepts as a parameter: a Python [int] is
    bound as a signed 64-bit INTEGER, and [execute] raises
    [OverflowError] for any other. *)
Definition int64 (n : Z) : bool :=
  (- (2 ^ 63) <=? n)%Z && (n <? 2 ^ 63)%Z.

(** [cursor.execute('INSERT OR REPLACE ...', (paper_id, title_vector,
    content_vector))] followed by [conn.commit()]. *)
Definition execute_insert_or_replace (now pid : Z) (tv cv : cell) (t : table)
  : outcome table :=
  if int64 pid then Return (insert_or_replace now pid tv cv t)
  else Raise OverflowError.

(** [SELECT ... FROM embeddings WHERE paper_id = pid] *)
Definition select (pid : Z) (t : table) : list row :=
  filter (fun r => (paper_id r =? pid)%Z) t.

End Sqlite.

Import Sqlite.

(** ** [class VectorStore] *)

(** [SentenceTransformer.encode] followed by [tolist()], as list of doubles. *)
Definition encoder := str -> list float.

Record VectorStore : Type := mkStore {
  VECTORS_ENABLED : bool;       (* module global: the import succeeded *)
  model : option encoder;       (* [self.model], [None] when not loaded *)
  embeddings : table            (* the table behind [self.db_path] *)
}.

(** [__init__]: [loaded] is what [SentenceTransformer('all-MiniLM-L6-v2')]
    does, [file] the table found at [db_path], if any. *)
Definition init (enabled : bool) (loaded : outcome encoder) (file : option table)
  : VectorStore :=
  mkStore enabled
    (if enabled
     then match loaded with Return m => Some m | Raise _ => None end
     else None)
    (create_table file).

(** [json.dumps] of a list of floats, as the cell it fills. *)
Definition json_dumps (v : list float) : cell := Json v.

(** [add_embedding(paper_id, title, content)] called when the clock
    reads [now]: the returned flag and the store afterwards. Inside the
    [try] block the [execute] call raises for a [paper_id] that is not
    a 64-bit integer; the handler returns [False], and as nothing was
    committed the table is as before. (The encoder is total and the
    database file is reachable.) *)
Definition add_embedding (self : VectorStore) (now : Z)
    (pid : Z) (title content : str) : outcome bool * VectorStore :=
  match VECTORS_ENABLED self, model self with
  | true, Some m =>
      let attempt :=
        (let title_v := if truthy title then m title else [] in
         let sample := content_sample content in
         let content_v := if truthy sample then m sample else [] in
         rows <- execute_insert_or_replace now pid
                   (json_dumps title_v) (json_dumps content_v) (embeddings self) ;;
         Return (true, mkStore (VECTORS_ENABLED self) (model self) rows)) in
      match try_except attempt (fun _ => Return (false, self)) with
      | Return (ok, after) => (Return ok, after)
      | Raise e => (Raise e, self)
      end
  | _, _ => (Return false, self)
  end.

(** [np.array(json.loads(x)) if x else np.array([])] *)
Definition load_vector (c : cell) : outcome (list float) :=
  match c with
  | Null => Return []
  | Json v => Return v
  | Garbled => Raise JSONDecodeError
  end.

(** [_cosine_similarity(a, b)]: the quotient is taken as it comes;
    NumPy scalars divide by zero without raising (the result is an
    infinity or NaN). *)
Definition cosine_similarity (a b : list float) : outcome float :=
  d <- Np.dot a b ;;
  Return (d / (Np.norm a * Np.norm b))%float.

Definition title_weight : float := 1.5%float.

(** The body of the scoring loop for one fetched row. *)
Definition score_row (query_vector : list float) (r : row) : outcome (Z * float) :=
  tv <- load_vector (title_vector r) ;;
  cv <- load_vector (content_vector r) ;;
  title_score <-
    (if truthy tv
     then (c <- cosine_similarity query_vector tv ;; Return (c * title_weight)%float)
     else Return 0%float) ;;
  content_score <-
    (if truthy cv then cosine_similarity query_vector cv else Return 0%float) ;;
  Return (paper_id r, Py.max title_score content_score).

(** [results.sort(key=lambda x: x[1], reverse=True)]: a stable sort,
    highest key first. It is written as the insertion sort that all
    stable sorts agree with when no key is NaN; on NaN keys the order
    Python's merge sort leaves is not modelled. *)
Fixpoint insert_desc (x : Z * float) (sorted : list (Z * float)) : list (Z * float) :=
  match sorted with
  | [] => [x]
  | y :: rest =>
      if (snd x <? snd y)%float then y :: insert_desc x rest else x :: sorted
  end.

Definition sort_desc (results : list (Z * float)) : list (Z * float) :=
  fold_right insert_desc [] results.

(** The scored and sorted [results] list of [search]. *)
Definition ranking (query_vector : list float) (rows : table)
  : outcome (list (Z * float)) :=
  results <- for_each (score_row query_vector) rows ;;
  Return (sort_desc results).

(** [search(query, limit)] *)
Definition search (self : VectorStore) (query : str) (limit : Z) : outcome (list Z) :=
  match VECTORS_ENABLED self, model self with
  | true, Some m =>
      try_except
        (let query_vector := m query in
         let rows := embeddings self in
         if negb (truthy rows) then Return []
         else
           results <- ranking query_vector rows ;;
           Return (map fst (slice results None (Some limit))))
        (fun _ => Return [])
  | _, _ => Return []
  end.

(** ** Vocabulary of the statements *)

(** [json.loads] accepts the cell. *)
Definition readable (c : cell) : bool :=
  match c with
  | Garbled => false
  | _ => true
  end.

(** The vector a readable cell stands for. *)
Definition vector_of (c : cell) : list float :=
  match c with
  | Json v => v
  | _ => []
  end.

(** [np.dot] accepts [v] next to the query: [v] is only used when it is
    non-empty, and then it must have the query's size. *)
Definition fits (query_vector v : list float) : bool :=
  negb (truthy v) || Nat.eqb (length query_vector) (length v).

(** A row the scoring loop gets through without an exception. *)
Definition rankable (query_vector : list float) (r : row) : bool :=
  readable (title_vector r) && readable (content_vector r)
  && fits query_vector (vector_of (title_vector r))
  && fits query_vector (vector_of (content_vector r)).

(** The cosine formula [dot(a,b) / (||a|| * ||b||)] on its own. *)
Definition cosine (a b : list float) : float :=
  (Np.dot_sum a b / (Np.norm a * Np.norm b))%float.

(** What each vector of a record contributes: its cosine with the
    query (the title's times 1.5), or 0 when the vector is empty. *)
Definition title_term (query_vector v : list float) : float :=
  if truthy v then (cosine query_vector v * 1.5)%float else 0%float.

Definition content_term (query_vector v : list float) : float :=
  if truthy v then cosine query_vector v else 0%float.

(** The score of a record: Python's [max] of the two contributions. *)
Definition record_score (query_vector : list float) (r : row) : float :=
  Py.max (title_term query_vector (vector_of (title_vector r)))
         (content_term query_vector (vector_of (content_vector r))).

(** The [results] list of [search] before it is sorted, in scan order. *)
Definition scored (query_vector : list float) (rows : table) : list (Z * float) :=
  map (fun r => (paper_id r, record_score query_vector r)) rows.

(** Every entry is a zero (of either sign). *)
Definition all_zero (v : list float) : bool :=
  forallb (fun x => (x =? 0)%float) v.

(** Scores in non-increasing order, every earlier one against every
    later one. *)
Definition descending (results : list (Z * float)) : Prop :=
  StronglySorted (fun x y => (snd y <=? snd x)%float = true) results.

(** The entries whose score equals [k], in the order they stand. *)
Definition tied_with (k : float) (results : list (Z * float)) : list (Z * float) :=
  filter (fun x => (snd x =? k)%float) results.

Definition no_nan (results : list (Z * float)) : Prop :=
  Forall (fun x => is_nan (snd x) = false) results.

(** The three slices of the sampling policy, by position. *)
Definition three_slices (content : str) : str :=
  let n := length content in
  firstn 1500 content ++ space
    ++ firstn 1500 (skipn (n / 2 - 750) content) ++ space
    ++ skipn (n - 1500) content.

(** What [add_embedding] hands to the encoder for the content, if
    anything: an empty sample is not encoded. *)
Definition encoded_content (content : str) : option str :=
  if truthy (content_sample content) then Some (content_sample content) else None.

(** The vectors [add_embedding] computes for a title and a content. *)
Definition title_embedding (m : encoder) (title : str) : list float :=
  if truthy title then m title else [].

Definition content_embedding (m : encoder) (content : str) : list float :=
  if truthy (content_sample content) then m (content_sample content) else [].

(** Primary-key discipline of the table: rows in strictly increasing
    [paper_id] order, hence no [paper_id] twice. *)
Definition keyed (t : table) : Prop :=
  StronglySorted (fun r r' => (paper_id r < paper_id r')%Z) t.

(** One call of [add_embedding], and a store's life as a list of calls. *)
Record call : Set := mkCall {
  call_time : Z;
  call_paper_id : Z;
  call_title : str;
  call_content : str
}.

Definition step (self : VectorStore) (c : call) : VectorStore :=
  snd (add_embedding self (call_time c) (call_paper_id c) (call_title c) (call_content c)).

Definition run (self : VectorStore) (calls : list call) : VectorStore :=
  fold_left step calls self.

(** [search(query)] with the default [limit=10]. *)
Definition search_default (self : VectorStore) (query : str) : outcome (list Z) :=
  search self query 10.

(** An encoder whose vectors all have [d] entries, as a sentence
    embedding model's do. *)
Definition fixed_dimension (m : encoder) (d : nat) : Prop :=
  forall text, length (m text) = d.

(** A cell written for an encoder of dimension [d]: empty, or a vector
    of [d] entries. *)
Definition cell_of_dimension (d : nat) (c : cell) : Prop :=
  readable c = true /\ (vector_of c = [] \/ length (vector_of c) = d).

Definition table_of_dimension (d : nat) (t : table) : Prop :=
  Forall (fun r => cell_of_dimension d (title_vector r)
                   /\ cell_of_dimension d (content_vector r)) t.

(** Two rows that differ at most in [created_at]. *)
Definition same_record (r r' : row) : Prop :=
  paper_id r = paper_id r'
  /\ title_vector r = title_vector r'
  /\ content_vector r = content_vector r'.

(** Two stores with the same provider whose tables agree, row by row,
    on everything but [created_at]. *)
Definition same_store (s s' : VectorStore) : Prop :=
  VECTORS_ENABLED s = VECTORS_ENABLED s'
  /\ model s = model s'
  /\ Forall2 same_record (embeddings s) (embeddings s').

(** The number of ids [results[:limit]] keeps out of [n], for a limit
    of either sign. *)
Definition kept (n : nat) (limit : Z) : nat :=
  if (limit <? 0)%Z then n - Z.to_nat (- limit) else Nat.min (Z.to_nat limit) n.

(** Concrete stores used in the examples: an encoder that maps every
    text to the one-dimensional unit vector. *)
Definition unit_encoder : encoder := fun _ => [1%float].

Definition store_of (rows : table) : VectorStore :=
  mkStore true (Some unit_encoder) rows.

(** ** Order of binary64 values

    [SFcompare] orders the values that are not NaN like the triples
    [rank] gives them, compared lexicographically. *)

Definition rank (f : spec_float) : Z * (Z * Z) :=
  match f with
  | S754_zero _ => (0, (0, 0))
  | S754_infinity true => (-2, (0, 0))
  | S754_infinity false => (2, (0, 0))
  | S754_nan => (3, (0, 0))
  | S754_finite true m e => (-1, (- e, - Zpos m))
  | S754_finite false m e => (1, (e, Zpos m))
  end%Z.

Definition lex_lt (a b : Z * (Z * Z)) : Prop :=
  (fst a < fst b
   \/ (fst a = fst b
       /\ (fst (snd a) < fst (snd b)
           \/ (fst (snd a) = fst (snd b) /\ snd (snd a) < snd (snd b)))))%Z.

Definition frank (x : float) : Z * (Z * Z) := rank (Prim2SF x).

(** A zero of either sign, or NaN: what sums and products of zeros are. *)
Definition zero_or_nan (x : float) : Prop :=
  match Prim2SF x with
  | S754_zero _ | S754_nan => True
  | _ => False
  end.

(** * Properties *)

(** ** Binary64 comparisons *)

Section FloatOrder.

Lemma Prim2SF_nan (x : float) : Prim2SF x = S754_nan <-> x = nan.
Proof.
  split; intros H.
  - apply Prim2SF_inj. rewrite H. reflexivity.
  - subst x. reflexivity.
Qed.

Lemma SFcompare_rank (x y : spec_float) :
  match SFcompare x y with
  | Some Lt => lex_lt (rank x) (rank y)
  | Some Eq => rank x = rank y
  | Some Gt => lex_lt (rank y) (rank x)
  | None => x = S754_nan \/ y = S754_nan
  end.
Proof.
  destruct x as [sx|sx| |sx mx ex], y as [sy|sy| |sy my ey]; simpl; auto;
    try destruct sx; try destruct sy; simpl; unfold lex_lt; simpl;
    try reflexivity; try lia.
  - destruct (Z.compare_spec ex ey); simpl; try lia.
    change (Pos.compare_cont Eq mx my) with (Pos.compare mx my).
    destruct (Pos.compare_spec mx my); simpl; try lia. subst; reflexivity.
  - destruct (Z.compare_spec ex ey); simpl; try lia.
    change (Pos.compare_cont Eq mx my) with (Pos.compare mx my).
    destruct (Pos.compare_spec mx my); simpl; try lia. subst; reflexivity.
Qed.

Lemma lex_lt_irrefl (a : Z * (Z * Z)) : ~ lex_lt a a.
Proof. unfold lex_lt. lia. Qed.

Lemma lex_lt_trans (a b c : Z * (Z * Z)) : lex_lt a b -> lex_lt b c -> lex_lt a c.
Proof. unfold lex_lt. lia. Qed.

Lemma lex_trichotomy (a b : Z * (Z * Z)) : lex_lt a b \/ a = b \/ lex_lt b a.
Proof.
  destruct a as [a1 [a2 a3]], b as [b1 [b2 b3]]; unfold lex_lt; simpl.
  destruct (Z.lt_trichotomy a1 b1) as [H|[H|H]]; try lia.
  destruct (Z.lt_trichotomy a2 b2) as [H2|[H2|H2]]; try lia.
  destruct (Z.lt_trichotomy a3 b3) as [H3|[H3|H3]]; try lia.
  subst; auto.
Qed.

Lemma ltb_iff (x y : float) :
  (x <? y)%float = true <-> x <> nan /\ y <> nan /\ lex_lt (frank x) (frank y).
Proof.
  rewrite ltb_spec. unfold SFltb, frank. rewrite <- !Prim2SF_nan.
  pose proof (SFcompare_rank (Prim2SF x) (Prim2SF y)) as H.
  destruct (SFcompare (Prim2SF x) (Prim2SF y)) as [[ | | ]|] eqn:E.
  - split; [discriminate|]. intros (_ & _ & L). rewrite H in L.
    exfalso; exact (lex_lt_irrefl L).
  - split; [|reflexivity]. intros _.
    destruct (Prim2SF x) eqn:Ex, (Prim2SF y) eqn:Ey; simpl in E; try discriminate;
      repeat split; try discriminate; exact H.
  - split; [discriminate|]. intros (_ & _ & L).
    exfalso; exact (lex_lt_irrefl (lex_lt_trans L H)).
  - split; [discriminate|]. intros (Nx & Ny & _). destruct H; contradiction.
Qed.

Lemma leb_iff (x y : float) :
  (x <=? y)%float = true
  <-> x <> nan /\ y <> nan /\ (lex_lt (frank x) (frank y) \/ frank x = frank y).
Proof.
  rewrite leb_spec. unfold SFleb, frank. rewrite <- !Prim2SF_nan.
  pose proof (SFcompare_rank (Prim2SF x) (Prim2SF y)) as H.
  destruct (SFcompare (Prim2SF x) (Prim2SF y)) as [[ | | ]|] eqn:E.
  - split; [|reflexivity]. intros _.
    destruct (Prim2SF x) eqn:Ex, (Prim2SF y) eqn:Ey; simpl in E; try discriminate;
      repeat split; try discriminate; right; exact H.
  - split; [|reflexivity]. intros _.
    destruct (Prim2SF x) eqn:Ex, (Prim2SF y) eqn:Ey; simpl in E; try discriminate;
      repeat split; try discriminate; left; exact H.
  - split; [discriminate|]. intros (_ & _ & [L|L]).
    + exfalso; exact (lex_lt_irrefl (lex_lt_trans L H)).
    + rewrite L in H. exfalso; exact (lex_lt_irrefl H).
  - split; [discriminate|]. intros (Nx & Ny & _). destruct H; contradiction.
Qed.

Lemma eqb_iff (x y : float) :
  (x =? y)%float = true <-> x <> nan /\ y <> nan /\ frank x = frank y.
Proof.
  rewrite eqb_spec. unfold SFeqb, frank. rewrite <- !Prim2SF_nan.
  pose proof (SFcompare_rank (Prim2SF x) (Prim2SF y)) as H.
  destruct (SFcompare (Prim2SF x) (Prim2SF y)) as [[ | | ]|] eqn:E.
  - split; [|reflexivity]. intros _.
    destruct (Prim2SF x) eqn:Ex, (Prim2SF y) eqn:Ey; simpl in E; try discriminate;
      repeat split; try discriminate; exact H.
  - split; [discriminate|]. intros (_ & _ & L). rewrite L in H.
    exfalso; exact (lex_lt_irrefl H).
  - split; [discriminate|]. intros (_ & _ & L). rewrite L in H.
    exfalso; exact (lex_lt_irrefl H).
  - split; [discriminate|]. intros (Nx & Ny & _). destruct H; contradiction.
Qed.

Lemma is_nan_false (x : float) : is_nan x = false <-> x <> nan.
Proof.
  unfold is_nan. rewrite negb_false_iff, eqb_iff. tauto.
Qed.

End FloatOrder.

Section FloatFacts.

Lemma ltb_leb (x y : float) : (x <? y)%float = true -> (x <=? y)%float = true.
Proof. rewrite ltb_iff, leb_iff. tauto. Qed.

Lemma not_ltb_leb (x y : float) :
  is_nan x = false -> is_nan y = false ->
  (x <? y)%float = false -> (y <=? x)%float = true.
Proof.
  rewrite !is_nan_false. intros Nx Ny H.
  apply leb_iff. repeat split; trivial.
  destruct (lex_trichotomy (frank x) (frank y)) as [L|[L|L]]; auto.
  exfalso. apply not_true_iff_false in H. apply H, ltb_iff. auto.
Qed.

Lemma leb_refl (x : float) : is_nan x = false -> (x <=? x)%float = true.
Proof. rewrite is_nan_false, leb_iff. auto. Qed.

Lemma leb_trans (x y z : float) :
  (x <=? y)%float = true -> (y <=? z)%float = true -> (x <=? z)%float = true.
Proof.
  rewrite !leb_iff. intros (Nx & Ny & Hxy) (_ & Nz & Hyz).
  repeat split; trivial.
  destruct Hxy as [Hxy|Hxy], Hyz as [Hyz|Hyz].
  - left; exact (lex_lt_trans Hxy Hyz).
  - left; rewrite <- Hyz; exact Hxy.
  - left; rewrite Hxy; exact Hyz.
  - right; congruence.
Qed.

(** A key strictly above [x] is not tied with anything [x] is tied with. *)
Lemma ltb_not_tied (x y k : float) :
  (x =? k)%float = true -> (x <? y)%float = true -> (y =? k)%float = false.
Proof.
  rewrite eqb_iff, ltb_iff. intros (_ & _ & E) (_ & _ & L).
  apply not_true_iff_false. rewrite eqb_iff. intros (_ & _ & E').
  rewrite E, <- E' in L. exact (lex_lt_irrefl L).
Qed.

Lemma ltb_nan_r (x : float) : (x <? nan)%float = false.
Proof.
  apply not_true_iff_false. rewrite ltb_iff. intros (_ & N & _). congruence.
Qed.

Lemma ltb_nan_l (x : float) : (nan <? x)%float = false.
Proof.
  apply not_true_iff_false. rewrite ltb_iff. intros (N & _). congruence.
Qed.

(** ** Arithmetic on zeros: the quotient of two zeros *)

Lemma eqb_zero (x : float) : (x =? 0)%float = true -> zero_or_nan x.
Proof.
  rewrite eqb_iff. unfold frank, zero_or_nan. intros (_ & _ & E).
  change (rank (Prim2SF 0)) with (0, (0, 0))%Z in E.
  destruct (Prim2SF x) as [s|s| |s m e]; simpl in E; trivial;
    destruct s; discriminate.
Qed.

Lemma mul_zero_r (x y : float) : zero_or_nan y -> zero_or_nan (x * y).
Proof.
  unfold zero_or_nan. rewrite mul_spec. unfold SF64mul, SFmul.
  destruct (Prim2SF x) as [sx|sx| |sx mx ex], (Prim2SF y) as [sy|sy| |sy my ey];
    simpl; tauto.
Qed.

Lemma mul_zero_l (x y : float) : zero_or_nan x -> zero_or_nan (x * y).
Proof.
  unfold zero_or_nan. rewrite mul_spec. unfold SF64mul, SFmul.
  destruct (Prim2SF x) as [sx|sx| |sx mx ex], (Prim2SF y) as [sy|sy| |sy my ey];
    simpl; tauto.
Qed.

Lemma add_zero (x y : float) : zero_or_nan x -> zero_or_nan y -> zero_or_nan (x + y).
Proof.
  unfold zero_or_nan. rewrite add_spec. unfold SF64add, SFadd.
  destruct (Prim2SF x) as [sx|sx| |sx mx ex], (Prim2SF y) as [sy|sy| |sy my ey];
    simpl; try tauto.
  destruct sx, sy; simpl; tauto.
Qed.

Lemma sqrt_zero (x : float) : zero_or_nan x -> zero_or_nan (sqrt x).
Proof.
  unfold zero_or_nan. rewrite sqrt_spec. unfold SF64sqrt, SFsqrt.
  destruct (Prim2SF x) as [sx|sx| |sx mx ex]; simpl; tauto.
Qed.

Lemma div_zero (x y : float) : zero_or_nan x -> zero_or_nan y -> (x / y)%float = nan.
Proof.
  unfold zero_or_nan. intros Hx Hy. apply Prim2SF_nan.
  rewrite div_spec. unfold SF64div, SFdiv.
  destruct (Prim2SF x) as [sx|sx| |sx mx ex], (Prim2SF y) as [sy|sy| |sy my ey];
    simpl; tauto || reflexivity.
Qed.

End FloatFacts.

(** ** Slices *)

Section Slices.

Context {A : Type}.
Implicit Types s : list A.

Lemma slice_prefix s (k : nat) :
  (k <= length s)%nat -> slice s None (Some (Z.of_nat k)) = firstn k s.
Proof.
  intros H. unfold slice, adjust_index, len.
  destruct (Z.ltb_spec (Z.of_nat k) 0); [lia|].
  destruct (Z.leb_spec (Z.of_nat (length s)) (Z.of_nat k)).
  - assert (k = length s) by lia. subst k.
    rewrite Z.sub_0_r, Nat2Z.id. reflexivity.
  - rewrite Z.sub_0_r, Nat2Z.id. reflexivity.
Qed.

Lemma slice_window s (a b : nat) :
  (a <= b <= length s)%nat ->
  slice s (Some (Z.of_nat a)) (Some (Z.of_nat b)) = firstn (b - a) (skipn a s).
Proof.
  intros H. unfold slice, adjust_index, len.
  destruct (Z.ltb_spec (Z.of_nat a) 0); [lia|].
  destruct (Z.ltb_spec (Z.of_nat b) 0); [lia|].
  destruct (Z.leb_spec (Z.of_nat (length s)) (Z.of_nat a)),
           (Z.leb_spec (Z.of_nat (length s)) (Z.of_nat b)); try lia.
  - assert (a = length s) by lia. assert (b = length s) by lia. subst a b.
    rewrite Z.sub_diag, Nat.sub_diag. reflexivity.
  - assert (b = length s) by lia. subst b.
    rewrite <- Nat2Z.inj_sub, !Nat2Z.id by lia. reflexivity.
  - rewrite <- Nat2Z.inj_sub, !Nat2Z.id by lia. reflexivity.
Qed.

Lemma slice_suffix s (k : nat) :
  (0 < k <= length s)%nat ->
  slice s (Some (- Z.of_nat k)%Z) None = skipn (length s - k) s.
Proof.
  intros H. unfold slice, adjust_index, len.
  destruct (Z.ltb_spec (- Z.of_nat k) 0); [|lia].
  destruct (Z.ltb_spec (- Z.of_nat k + Z.of_nat (length s)) 0); [lia|].
  replace (- Z.of_nat k + Z.of_nat (length s))%Z
    with (Z.of_nat (length s - k)) by lia.
  rewrite Nat2Z.id. apply firstn_all2. rewrite length_skipn. lia.
Qed.

(** A slice that stops at a bound past the end is the whole list. *)
Lemma slice_all s (k : Z) :
  (len s <= k)%Z -> slice s None (Some k) = s.
Proof.
  intros H. unfold slice, adjust_index. unfold len in *.
  destruct (Z.ltb_spec k 0); [lia|].
  destruct (Z.leb_spec (Z.of_nat (length s)) k); [|lia].
  rewrite Z.sub_0_r, Nat2Z.id. simpl. apply firstn_all.
Qed.

(** [s[:-k]] drops the last [k] items. *)
Lemma slice_drop_last s (k : nat) :
  (0 < k <= length s)%nat ->
  slice s None (Some (- Z.of_nat k)%Z) = firstn (length s - k) s.
Proof.
  intros H. unfold slice, adjust_index, len.
  destruct (Z.ltb_spec (- Z.of_nat k) 0); [|lia].
  destruct (Z.ltb_spec (- Z.of_nat k + Z.of_nat (length s)) 0); [lia|].
  rewrite Z.sub_0_r.
  replace (- Z.of_nat k + Z.of_nat (length s))%Z
    with (Z.of_nat (length s - k)) by lia.
  rewrite Nat2Z.id. reflexivity.
Qed.

End Slices.

(** ** Content sampling *)

(** The sample by position: a content of more than 5000 characters is
    sampled as its first 1500 characters, a space, the 1500 characters
    from index [len//2 - 750] up to [len//2 + 750], a space, and its
    last 1500 characters (4502 characters in all); a content of at most
    5000 characters is its own sample. *)
Lemma content_sample_three_slices (content : str) :
  ((5000 < length content)%nat ->
     content_sample content = three_slices content
     /\ encoded_content content = Some (three_slices content)
     /\ length (content_sample content) = 4502%nat)
  /\ ((length content <= 5000)%nat ->
        content_sample content = content
        /\ encoded_content content = if truthy content then Some content else None).
Proof.
  split; intros H.
  - assert (E : content_sample content = three_slices content).
    { unfold content_sample, three_slices, len.
      destruct (Z.ltb_spec 5000 (Z.of_nat (length content))) as [_|]; [|lia].
      change 1500%Z with (Z.of_nat 1500).
      rewrite slice_prefix by lia.
      replace (Z.of_nat (length content) / 2 - 750)%Z
        with (Z.of_nat (length content / 2 - 750))
        by (rewrite Nat2Z.inj_sub, Nat2Z.inj_div by
              (apply Nat.div_le_lower_bound; lia); reflexivity).
      replace (Z.of_nat (length content) / 2 + 750)%Z
        with (Z.of_nat (length content / 2 + 750))
        by (rewrite Nat2Z.inj_add, Nat2Z.inj_div; reflexivity).
      assert (length content / 2 <= length content)%nat
        by (apply Nat.Div0.div_le_upper_bound; lia).
      assert (2500 <= length content / 2)%nat
        by (apply Nat.div_le_lower_bound; lia).
      assert (2 * (length content / 2) <= length content)%nat
        by (apply Nat.Div0.mul_div_le).
      rewrite slice_window by lia.
      change (-1500)%Z with (- Z.of_nat 1500)%Z.
      rewrite slice_suffix by lia.
      replace (length content / 2 + 750 - (length content / 2 - 750))%nat
        with 1500%nat by lia.
      reflexivity. }
    assert (L : length (three_slices content) = 4502%nat).
    { unfold three_slices, space.
      assert (2500 <= length content / 2)%nat
        by (apply Nat.div_le_lower_bound; lia).
      assert (2 * (length content / 2) <= length content)%nat
        by (apply Nat.Div0.mul_div_le).
      rewrite !length_app, !length_firstn, !length_skipn. cbn [length]. lia. }
    unfold encoded_content. rewrite E. repeat split; trivial.
    destruct (three_slices content); [discriminate L|reflexivity].
  - assert (E : content_sample content = content).
    { unfold content_sample, len.
      destruct (Z.ltb_spec 5000 (Z.of_nat (length content))); [lia|reflexivity]. }
    unfold encoded_content. rewrite E. split; reflexivity.
Qed.

(** ** The sort of [search] *)

Section Sorting.

Implicit Types (x y : Z * float) (l : list (Z * float)).

Lemma insert_desc_perm x l : Permutation (insert_desc x l) (x :: l).
Proof.
  induction l as [|y l IH]; simpl.
  - apply Permutation_refl.
  - destruct (snd x <? snd y)%float.
    + apply perm_trans with (y :: x :: l).
      * apply perm_skip, IH.
      * apply perm_swap.
    + apply Permutation_refl.
Qed.

Lemma sort_desc_perm l : Permutation (sort_desc l) l.
Proof.
  induction l as [|x l IH]; simpl.
  - apply perm_nil.
  - apply perm_trans with (x :: sort_desc l).
    + apply insert_desc_perm.
    + apply perm_skip, IH.
Qed.

Lemma sort_desc_length l : length (sort_desc l) = length l.
Proof. apply Permutation_length, sort_desc_perm. Qed.

Lemma no_nan_perm l l' : Permutation l l' -> no_nan l -> no_nan l'.
Proof. intros P H. exact (Permutation_Forall P H). Qed.

Lemma insert_desc_descending x l :
  is_nan (snd x) = false -> no_nan l ->
  descending l -> descending (insert_desc x l).
Proof.
  intros Nx. induction l as [|y l IH]; simpl; intros Nl Sl.
  - repeat constructor.
  - inversion Nl as [|? ? Ny Nl']; subst.
    inversion Sl as [|? ? Sl' Hy]; subst.
    destruct (snd x <? snd y)%float eqn:E.
    + constructor.
      * apply IH; assumption.
      * apply (Permutation_Forall (Permutation_sym (insert_desc_perm x l))).
        constructor; [apply ltb_leb, E|exact Hy].
    + assert (Lyx : (snd y <=? snd x)%float = true)
        by (apply not_ltb_leb; assumption).
      constructor; [exact Sl|].
      constructor; [exact Lyx|].
      eapply Forall_impl; [|exact Hy].
      intros z Hz. cbv beta in Hz |- *. exact (leb_trans Hz Lyx).
Qed.

Lemma sort_desc_descending l : no_nan l -> descending (sort_desc l).
Proof.
  induction l as [|x l IH]; simpl; intros Nl.
  - constructor.
  - inversion Nl as [|? ? Nx Nl']; subst.
    apply insert_desc_descending; trivial.
    + exact (no_nan_perm (Permutation_sym (sort_desc_perm l)) Nl').
    + apply IH, Nl'.
Qed.

Lemma insert_desc_tied k x l :
  tied_with k (insert_desc x l) = tied_with k (x :: l).
Proof.
  unfold tied_with.
  induction l as [|y l IH]; simpl; [reflexivity|].
  destruct (snd x <? snd y)%float eqn:E; [|reflexivity].
  simpl. rewrite IH. simpl.
  destruct (snd x =? k)%float eqn:Ex; [|reflexivity].
  rewrite (ltb_not_tied Ex E). reflexivity.
Qed.

Lemma sort_desc_tied k l : tied_with k (sort_desc l) = tied_with k l.
Proof.
  induction l as [|x l IH]; simpl; [reflexivity|].
  rewrite insert_desc_tied. unfold tied_with in *. simpl.
  rewrite IH. reflexivity.
Qed.

End Sorting.

(** ** Scoring one record *)

Section Scoring.

Variable q : list float.

Lemma load_vector_readable (c : cell) :
  readable c = true -> load_vector c = Return (vector_of c).
Proof. destruct c; simpl; intros H; [reflexivity|reflexivity|discriminate]. Qed.

Lemma load_vector_garbled (c : cell) :
  readable c = false -> load_vector c = Raise JSONDecodeError.
Proof. destruct c; simpl; intros H; [discriminate|discriminate|reflexivity]. Qed.

Lemma cosine_similarity_aligned (v : list float) :
  length q = length v -> cosine_similarity q v = Return (cosine q v).
Proof.
  intros H. unfold cosine_similarity, Np.dot. rewrite H, Nat.eqb_refl. reflexivity.
Qed.

Lemma title_score_fits (v : list float) :
  fits q v = true ->
  (if truthy v
   then (c <- cosine_similarity q v ;; Return (c * title_weight)%float)
   else Return 0%float) = Return (title_term q v).
Proof.
  unfold fits, title_term. destruct (truthy v); simpl; intros H; [|reflexivity].
  apply Nat.eqb_eq in H. rewrite (cosine_similarity_aligned _ H). reflexivity.
Qed.

Lemma content_score_fits (v : list float) :
  fits q v = true ->
  (if truthy v then cosine_similarity q v else Return 0%float)
  = Return (content_term q v).
Proof.
  unfold fits, content_term. destruct (truthy v); simpl; intros H; [|reflexivity].
  apply Nat.eqb_eq in H. exact (cosine_similarity_aligned _ H).
Qed.

Lemma score_row_rankable (r : row) :
  rankable q r = true -> score_row q r = Return (paper_id r, record_score q r).
Proof.
  unfold rankable. rewrite !andb_true_iff. intros [[[Rt Rc] Ft] Fc].
  unfold score_row.
  rewrite (load_vector_readable _ Rt), (load_vector_readable _ Rc). simpl.
  rewrite (title_score_fits _ Ft). simpl.
  rewrite (content_score_fits _ Fc). reflexivity.
Qed.

Lemma score_row_garbled (r : row) :
  readable (title_vector r) = false \/ readable (content_vector r) = false ->
  score_row q r = Raise JSONDecodeError.
Proof.
  unfold score_row. intros [H|H].
  - rewrite (load_vector_garbled _ H). reflexivity.
  - destruct (readable (title_vector r)) eqn:Rt.
    + rewrite (load_vector_readable _ Rt), (load_vector_garbled _ H). reflexivity.
    + rewrite (load_vector_garbled _ Rt). reflexivity.
Qed.

Lemma for_each_rankable (rows : table) :
  Forall (fun r => rankable q r = true) rows ->
  for_each (score_row q) rows = Return (scored q rows).
Proof.
  induction 1 as [|r rows Hr _ IH]; simpl; [reflexivity|].
  rewrite (score_row_rankable _ Hr). simpl. rewrite IH. reflexivity.
Qed.

Lemma for_each_garbled (rows : table) :
  Exists (fun r => readable (title_vector r) = false
                   \/ readable (content_vector r) = false) rows ->
  exists e, for_each (score_row q) rows = Raise e.
Proof.
  induction 1 as [r rows Hr|r rows _ [e IH]]; simpl.
  - rewrite (score_row_garbled _ Hr). simpl. eauto.
  - destruct (score_row q r); simpl; [|eauto].
    rewrite IH. simpl. eauto.
Qed.

Lemma ranking_rankable (rows : table) :
  Forall (fun r => rankable q r = true) rows ->
  ranking q rows = Return (sort_desc (scored q rows)).
Proof.
  intros H. unfold ranking. rewrite (for_each_rankable H). reflexivity.
Qed.

(** ** Zero vectors *)

Lemma dot_sum_zero (a b : list float) :
  all_zero b = true -> zero_or_nan (Np.dot_sum a b).
Proof.
  unfold Np.dot_sum.
  assert (Z0 : zero_or_nan 0%float) by exact I.
  revert Z0. generalize 0%float as acc. revert b.
  induction a as [|x a IH]; intros b acc Hacc Hb; simpl; [exact Hacc|].
  destruct b as [|y b]; simpl; [exact Hacc|].
  simpl in Hb. apply andb_true_iff in Hb. destruct Hb as [Hy Hb].
  apply IH; [|exact Hb].
  apply add_zero; [exact Hacc|]. apply mul_zero_r, eqb_zero, Hy.
Qed.

Lemma cosine_zero (b : list float) : all_zero b = true -> cosine q b = nan.
Proof.
  intros H. unfold cosine. apply div_zero.
  - apply dot_sum_zero, H.
  - apply mul_zero_r. unfold Np.norm. apply sqrt_zero, dot_sum_zero, H.
Qed.

Lemma dot_sum_zero_l (a b : list float) :
  all_zero a = true -> zero_or_nan (Np.dot_sum a b).
Proof.
  unfold Np.dot_sum.
  assert (Z0 : zero_or_nan 0%float) by exact I.
  revert Z0. generalize 0%float as acc. revert b.
  induction a as [|x a IH]; intros b acc Hacc Ha; simpl; [exact Hacc|].
  destruct b as [|y b]; simpl; [exact Hacc|].
  simpl in Ha. apply andb_true_iff in Ha. destruct Ha as [Hx Ha].
  apply IH; [|exact Ha].
  apply add_zero; [exact Hacc|]. apply mul_zero_l, eqb_zero, Hx.
Qed.

Lemma cosine_zero_query (b : list float) : all_zero q = true -> cosine q b = nan.
Proof.
  intros H. unfold cosine. apply div_zero.
  - apply dot_sum_zero_l, H.
  - apply mul_zero_l. unfold Np.norm. apply sqrt_zero, dot_sum_zero_l, H.
Qed.

End Scoring.

(** ** Scores *)

Lemma max_nan_l (c : float) : Py.max nan c = nan.
Proof. unfold Py.max. rewrite ltb_nan_l. reflexivity. Qed.

Lemma max_nan_r (t : float) : Py.max t nan = t.
Proof. unfold Py.max. rewrite ltb_nan_r. reflexivity. Qed.


(** [search] hands back a list whatever happens inside it. *)
Lemma search_returns (self : VectorStore) (query : str) (limit : Z) :
  exists ids, search self query limit = Return ids.
Proof.
  unfold search.
  destruct (VECTORS_ENABLED self); [|eauto].
  destruct (model self) as [m|]; [|eauto].
  match goal with |- context [try_except ?c _] => destruct c end; simpl; eauto.
Qed.

(** C1 (as the code has it). The cosine is computed without a guard.
    When the query vector or a non-empty stored vector [b] of the
    query's size has only zero entries, [_cosine_similarity] does not
    raise and returns NaN. With [b] as title vector this NaN is the
    record's score; with [b] as content vector it loses in [max], and
    the record's score is its title term, whatever that is. No
    exception leaves [search]. *)
Theorem zero_vector_cosine_unguarded (q b : list float) (pid created : Z) :
  length q = length b -> truthy b = true ->
  all_zero q = true \/ all_zero b = true ->
  cosine_similarity q b = Return nan
  /\ (forall cv, readable cv = true -> fits q (vector_of cv) = true ->
        score_row q (mkRow pid (Json b) cv created) = Return (pid, nan))
  /\ (forall tv, readable tv = true -> fits q (vector_of tv) = true ->
        score_row q (mkRow pid tv (Json b) created)
        = Return (pid, title_term q (vector_of tv)))
  /\ (forall self query limit, exists ids, search self query limit = Return ids).
Proof.
  intros L T Z.
  assert (F : fits q b = true)
    by (unfold fits; rewrite L, Nat.eqb_refl; apply orb_true_r).
  assert (C : cosine q b = nan).
  { destruct Z as [Z|Z]; [exact (@cosine_zero_query q b Z)|exact (@cosine_zero q b Z)]. }
  repeat split.
  - rewrite (@cosine_similarity_aligned q b L), C. reflexivity.
  - intros cv Rc Fc.
    rewrite score_row_rankable
      by (unfold rankable; simpl; rewrite Rc, Fc, F; reflexivity).
    unfold record_score, title_term; simpl. rewrite T, C.
    change (nan * 1.5)%float with nan. rewrite max_nan_l. reflexivity.
  - intros tv Rt Ft.
    rewrite score_row_rankable
      by (unfold rankable; simpl; rewrite Rt, Ft, F; reflexivity).
    unfold record_score, content_term; simpl. rewrite T, C.
    rewrite max_nan_r. reflexivity.
  - intros self query limit. apply search_returns.
Qed.

Lemma zero_vector_cosine_unguarded_witness :
  cosine_similarity [1%float; 2%float] [0%float; (-0)%float] = Return nan.
Proof.
  apply (zero_vector_cosine_unguarded [1%float; 2%float] [0%float; (-0)%float] 1 0);
    [reflexivity|reflexivity|right; reflexivity].
Defined.

(** C1 fails as stated: with the query vector [[1.0]], a record whose
    title vector is [[0.0]] gets the score NaN, not 0; and next to the
    title vector [[-1.0]] (title term -1.5) an all-zero content vector
    leaves the score at -1.5, where a contribution of 0 would lift it
    to 0. *)
Lemma zero_vector_contribution_is_not_zero :
  cosine_similarity [1%float] [0%float] = Return nan
  /\ score_row [1%float] (mkRow 1 (Json [0%float]) Null 0) = Return (1%Z, nan)
  /\ score_row [1%float] (mkRow 1 (Json [(-1)%float]) (Json [0%float]) 0)
     = Return (1%Z, (-1.5)%float)
  /\ Py.max (-1.5)%float 0%float = 0%float.
Proof. repeat split. Qed.



(** ** The table under [INSERT OR REPLACE] *)

Section Table.

Implicit Types (r : row) (t : table).

Lemma delete_conflicts_clears pid t :
  Forall (fun r => paper_id r <> pid) (delete_conflicts pid t).
Proof.
  unfold delete_conflicts. apply Forall_forall. intros r Hr.
  apply filter_In in Hr. destruct Hr as [_ Hr].
  apply negb_true_iff, Z.eqb_neq in Hr. exact Hr.
Qed.

Lemma delete_conflicts_keyed pid t : keyed t -> keyed (delete_conflicts pid t).
Proof.
  unfold keyed, delete_conflicts.
  induction 1 as [|r t _ IH Hr]; simpl; [constructor|].
  destruct (negb (paper_id r =? pid)%Z); [|exact IH].
  constructor; [exact IH|].
  apply Forall_forall. intros r' Hr'. apply filter_In in Hr'.
  rewrite Forall_forall in Hr. apply Hr, Hr'.
Qed.

Lemma insert_row_in r r' t : In r' (insert_row r t) -> r' = r \/ In r' t.
Proof.
  induction t as [|x t IH]; simpl.
  - intros [H|[]]; auto.
  - destruct (paper_id r <? paper_id x)%Z; simpl.
    + intros [H|[H|H]]; auto.
    + intros [H|H]; auto. destruct (IH H); auto.
Qed.

Lemma insert_row_keyed r t :
  keyed t -> Forall (fun r' => paper_id r' <> paper_id r) t ->
  keyed (insert_row r t).
Proof.
  unfold keyed.
  induction 1 as [|x t St IH Hx]; simpl; intros Hne.
  - repeat constructor.
  - inversion Hne as [|? ? Nx Nt]; subst.
    destruct (Z.ltb_spec (paper_id r) (paper_id x)) as [L|L].
    + constructor; [constructor; assumption|].
      constructor; [exact L|].
      eapply Forall_impl; [|exact Hx]. intros a Ha. cbv beta in *. lia.
    + constructor; [apply IH, Nt|].
      apply Forall_forall. intros a Ha.
      destruct (insert_row_in _ _ _ Ha) as [->|Ha'].
      * lia.
      * rewrite Forall_forall in Hx. apply Hx, Ha'.
Qed.

Lemma insert_or_replace_keyed now pid tv cv t :
  keyed t -> keyed (insert_or_replace now pid tv cv t).
Proof.
  intros K. unfold insert_or_replace. apply insert_row_keyed.
  - apply delete_conflicts_keyed, K.
  - exact (delete_conflicts_clears pid t).
Qed.

Lemma keyed_NoDup t : keyed t -> NoDup (map paper_id t).
Proof.
  unfold keyed. induction 1 as [|r t _ IH Hr]; simpl; constructor; [|exact IH].
  intros Hin. apply in_map_iff in Hin. destruct Hin as (r' & E & Hr').
  rewrite Forall_forall in Hr. specialize (Hr _ Hr'). lia.
Qed.

Lemma select_absent pid t :
  Forall (fun r => paper_id r <> pid) t -> select pid t = [].
Proof.
  unfold select. induction 1 as [|x t Nx _ IH]; simpl; [reflexivity|].
  apply Z.eqb_neq in Nx. rewrite Nx. exact IH.
Qed.

Lemma select_insert_row r t :
  Forall (fun r' => paper_id r' <> paper_id r) t ->
  select (paper_id r) (insert_row r t) = [r].
Proof.
  induction 1 as [|x t Nx Ht IH]; simpl.
  - unfold select. simpl. rewrite Z.eqb_refl. reflexivity.
  - destruct (paper_id r <? paper_id x)%Z.
    + change (select (paper_id r) (r :: x :: t))
        with (if (paper_id r =? paper_id r)%Z
              then r :: select (paper_id r) (x :: t)
              else select (paper_id r) (x :: t)).
      rewrite Z.eqb_refl, (@select_absent (paper_id r) (x :: t)); [reflexivity|].
      constructor; assumption.
    + change (select (paper_id r) (x :: insert_row r t))
        with (if (paper_id x =? paper_id r)%Z
              then x :: select (paper_id r) (insert_row r t)
              else select (paper_id r) (insert_row r t)).
      apply Z.eqb_neq in Nx. rewrite Nx. exact IH.
Qed.

Lemma select_insert_or_replace now pid tv cv t :
  select pid (insert_or_replace now pid tv cv t) = [mkRow pid tv cv now].
Proof.
  unfold insert_or_replace.
  exact (select_insert_row (mkRow pid tv cv now) (delete_conflicts_clears pid t)).
Qed.

End Table.

(** ** Indexing *)

Lemma add_embedding_available (self : VectorStore) (m : encoder)
    (now pid : Z) (title content : str) :
  VECTORS_ENABLED self = true -> model self = Some m -> int64 pid = true ->
  add_embedding self now pid title content
  = (Return true,
     mkStore true (Some m)
       (insert_or_replace now pid
          (json_dumps (title_embedding m title))
          (json_dumps (content_embedding m content))
          (embeddings self))).
Proof.
  intros E M I. unfold add_embedding, execute_insert_or_replace.
  rewrite E, M, I. reflexivity.
Qed.

Lemma add_embedding_overflow (self : VectorStore)
    (now pid : Z) (title content : str) :
  int64 pid = false ->
  add_embedding self now pid title content = (Return false, self).
Proof.
  intros I. unfold add_embedding, execute_insert_or_replace. rewrite I.
  destruct (VECTORS_ENABLED self); [|reflexivity].
  destruct (model self); reflexivity.
Qed.

Lemma add_embedding_success (self : VectorStore)
    (now pid : Z) (title content : str) :
  fst (add_embedding self now pid title content) = Return true ->
  VECTORS_ENABLED self = true /\ int64 pid = true
  /\ exists m, model self = Some m.
Proof.
  destruct (int64 pid) eqn:I;
    [|rewrite (@add_embedding_overflow self now pid title content I); discriminate].
  unfold add_embedding.
  destruct (VECTORS_ENABLED self); [|discriminate].
  destruct (model self) as [m|]; [|discriminate].
  intros _. repeat split. exists m. reflexivity.
Qed.

Lemma add_embedding_unavailable (self : VectorStore)
    (now pid : Z) (title content : str) :
  VECTORS_ENABLED self = false \/ model self = None ->
  add_embedding self now pid title content = (Return false, self).
Proof.
  unfold add_embedding. intros [E|M].
  - rewrite E. reflexivity.
  - rewrite M. destruct (VECTORS_ENABLED self); reflexivity.
Qed.

(** The two ways a call ends: nothing written and [False], or the row
    written and [True]. *)
Lemma add_embedding_cases (self : VectorStore)
    (now pid : Z) (title content : str) :
  add_embedding self now pid title content = (Return false, self)
  \/ exists m,
       VECTORS_ENABLED self = true /\ model self = Some m /\ int64 pid = true
       /\ add_embedding self now pid title content
          = (Return true,
             mkStore true (Some m)
               (insert_or_replace now pid
                  (json_dumps (title_embedding m title))
                  (json_dumps (content_embedding m content))
                  (embeddings self))).
Proof.
  destruct (int64 pid) eqn:I;
    [|left; exact (@add_embedding_overflow self now pid title content I)].
  destruct (VECTORS_ENABLED self) eqn:E;
    [|left; apply add_embedding_unavailable; left; exact E].
  destruct (model self) as [m|] eqn:M;
    [|left; apply add_embedding_unavailable; right; exact M].
  right. exists m. repeat split.
  exact (@add_embedding_available self m now pid title content E M I).
Qed.

Lemma step_keyed (self : VectorStore) (c : call) :
  keyed (embeddings self) -> keyed (embeddings (step self c)).
Proof.
  intros K. unfold step.
  destruct (add_embedding_cases self (call_time c) (call_paper_id c)
              (call_title c) (call_content c)) as [F|(m & _ & _ & _ & S)].
  - rewrite F. exact K.
  - rewrite S. simpl. apply insert_or_replace_keyed, K.
Qed.

Lemma run_keyed (calls : list call) (self : VectorStore) :
  keyed (embeddings self) -> keyed (embeddings (run self calls)).
Proof.
  unfold run. revert self.
  induction calls as [|c calls IH]; simpl; intros self K; [exact K|].
  apply IH, step_keyed, K.
Qed.

(** C4 (as the code has it). [created_at] does not survive a re-upsert:
    with the provider available and a [paper_id] that SQLite accepts (a
    signed 64-bit integer), [add_embedding] succeeds and leaves for its
    [paper_id] exactly one row, holding the new title and content
    vectors and, as [created_at], the time of this call, whatever the
    table held before. *)
Theorem upsert_resets_created_at (self : VectorStore) (m : encoder)
    (now pid : Z) (title content : str) :
  VECTORS_ENABLED self = true -> model self = Some m -> int64 pid = true ->
  fst (add_embedding self now pid title content) = Return true
  /\ select pid (embeddings (snd (add_embedding self now pid title content)))
     = [mkRow pid (json_dumps (title_embedding m title))
          (json_dumps (content_embedding m content)) now].
Proof.
  intros E M I.
  rewrite (@add_embedding_available self m now pid title content E M I).
  simpl. split; [reflexivity|]. apply select_insert_or_replace.
Qed.

Lemma upsert_resets_created_at_witness :
  select 1 (embeddings (snd (add_embedding
     (store_of [mkRow 1 (Json [1%float]) Null 100]) 200 1 ["t"%char] [])))
  = [mkRow 1 (Json [1%float]) (Json []) 200].
Proof.
  exact (proj2 (@upsert_resets_created_at
                  (store_of [mkRow 1 (Json [1%float]) Null 100]) unit_encoder
                  200 1 ["t"%char] [] eq_refl eq_refl eq_refl)).
Defined.

(** C4 fails as stated: paper 1 indexed at time 100 has [created_at]
    100; indexed again at time 200 its only row has [created_at] 200. *)
Lemma reupsert_changes_created_at :
  map created_at
    (select 1 (embeddings (run (store_of []) [mkCall 100 1 ["a"%char] ["x"%char]])))
  = [100%Z]
  /\ map created_at
       (select 1 (embeddings (run (store_of [])
          [mkCall 100 1 ["a"%char] ["x"%char]; mkCall 200 1 ["b"%char] ["y"%char]])))
     = [200%Z].
Proof. split; reflexivity. Qed.

(** C9. The table never holds two rows with one [paper_id]: the
    primary-key order is kept by every sequence of [add_embedding]
    calls, from a fresh table in particular; and indexing a [paper_id]
    twice (the provider available, the id a signed 64-bit integer, so
    that both calls go through) leaves exactly one row for it, made of
    the second call's vectors only. *)
Theorem one_record_per_paper :
  (forall self calls,
      keyed (embeddings self) ->
      keyed (embeddings (run self calls))
      /\ NoDup (map paper_id (embeddings (run self calls))))
  /\ (forall enabled loaded calls,
         NoDup (map paper_id (embeddings (run (init enabled loaded None) calls))))
  /\ (forall self m now1 now2 pid title1 content1 title2 content2,
         VECTORS_ENABLED self = true -> model self = Some m ->
         int64 pid = true ->
         select pid (embeddings (run self
            [mkCall now1 pid title1 content1; mkCall now2 pid title2 content2]))
         = [mkRow pid (json_dumps (title_embedding m title2))
              (json_dumps (content_embedding m content2)) now2]).
Proof.
  split; [|split].
  - intros self calls K. split; [|apply keyed_NoDup]; apply run_keyed, K.
  - intros enabled loaded calls. apply keyed_NoDup, run_keyed.
    simpl. constructor.
  - intros self m now1 now2 pid t1 c1 t2 c2 E M I.
    unfold run, step. simpl.
    rewrite (@add_embedding_available self m now1 pid t1 c1 E M I). simpl.
    rewrite (@add_embedding_available (mkStore true (Some m) _) m now2 pid t2 c2
               eq_refl eq_refl I). simpl.
    apply select_insert_or_replace.
Qed.

(** C6. With the provider unavailable (the import failed or the model
    did not load) [add_embedding] returns [False] and leaves the store
    alone, and [search] returns the empty list, for every input; both
    return normally. *)
Theorem unavailable_provider_is_inert (self : VectorStore) :
  VECTORS_ENABLED self = false \/ model self = None ->
  forall (now pid : Z) (title content query : str) (limit : Z),
    add_embedding self now pid title content = (Return false, self)
    /\ search self query limit = Return [].
Proof.
  intros H now pid title content query limit.
  split; [apply add_embedding_unavailable, H|].
  unfold search. destruct H as [E|M].
  - rewrite E. reflexivity.
  - rewrite M. destruct (VECTORS_ENABLED self); reflexivity.
Qed.

Lemma unavailable_provider_is_inert_witness :
  add_embedding (init true (Raise RuntimeError) None) 5 1 ["t"%char] ["c"%char]
  = (Return false, init true (Raise RuntimeError) None)
  /\ search (init true (Raise RuntimeError) None) ["q"%char] 10 = Return [].
Proof.
  apply (@unavailable_provider_is_inert (init true (Raise RuntimeError) None)).
  right. reflexivity.
Defined.

(** ** Searching *)

Lemma slice_take {A} (s : list A) (limit : Z) :
  (0 <= limit)%Z -> slice s None (Some limit) = firstn (Z.to_nat limit) s.
Proof.
  intros H. destruct (Z.le_gt_cases (len s) limit) as [L|L].
  - rewrite (slice_all s L). symmetry. apply firstn_all2. unfold len in L. lia.
  - rewrite <- (Z2Nat.id limit H) at 1. apply slice_prefix. unfold len in L. lia.
Qed.

Lemma search_rankable (self : VectorStore) (m : encoder) (query : str) (limit : Z) :
  VECTORS_ENABLED self = true -> model self = Some m ->
  Forall (fun r => rankable (m query) r = true) (embeddings self) ->
  search self query limit
  = Return (map fst (slice (sort_desc (scored (m query) (embeddings self)))
                       None (Some limit))).
Proof.
  intros E M R. unfold search. rewrite E, M.
  destruct (embeddings self) as [|r rows] eqn:Rows.
  - simpl. unfold slice. simpl. destruct (Z.to_nat _); reflexivity.
  - cbn [truthy negb]. rewrite (@ranking_rankable (m query) (r :: rows) R).
    reflexivity.
Qed.

Lemma search_garbled (self : VectorStore) (query : str) (limit : Z) :
  Exists (fun r => readable (title_vector r) = false
                   \/ readable (content_vector r) = false) (embeddings self) ->
  search self query limit = Return [].
Proof.
  intros G. unfold search.
  destruct (VECTORS_ENABLED self); [|reflexivity].
  destruct (model self) as [m|]; [|reflexivity].
  destruct (embeddings self) as [|r rows] eqn:Rows; [reflexivity|].
  cbn [truthy negb]. unfold ranking.
  destruct (for_each_garbled (m query) G) as [e He]. rewrite He. reflexivity.
Qed.

(** C5 (as the code has it). A stored vector that [json.loads] rejects
    is not skipped: [search] gives up on the whole scan and returns the
    empty list, whatever the other records are. It returns normally. *)
Theorem garbled_record_empties_search (self : VectorStore) (query : str) (limit : Z) :
  Exists (fun r => readable (title_vector r) = false
                   \/ readable (content_vector r) = false) (embeddings self) ->
  search self query limit = Return [].
Proof. apply search_garbled. Qed.

Lemma garbled_record_empties_search_witness :
  search (store_of [mkRow 1 Null (Json [1%float]) 0; mkRow 2 Garbled Null 0]) [] 10
  = Return [].
Proof.
  apply garbled_record_empties_search.
  apply Exists_cons_tl, Exists_cons_hd. left. reflexivity.
Defined.

(** C5 fails as stated: next to the well-formed record 1, a record 2
    with an unreadable title vector makes [search] return the empty
    list, where skipping record 2 would return [[1]] (what the store
    without record 2 returns). *)
Lemma garbled_record_is_not_skipped :
  search (store_of [mkRow 1 Null (Json [1%float]) 0; mkRow 2 Garbled Null 0]) [] 10
  = Return []
  /\ search (store_of [mkRow 1 Null (Json [1%float]) 0]) [] 10 = Return [1%Z].
Proof. split; reflexivity. Qed.

(** C7 (as the code has it). When every stored record is rankable for
    the query (its vectors are readable and of the query's size) and
    [limit >= 0], [search] returns the first [limit] ids of the ranking,
    [min(limit, number of records)] of them; the ranking is a
    permutation of the scored records and, when no score is NaN, it is
    in descending score order with tied records in scan order. An empty
    table and [limit = 0] give the empty list. *)
Theorem search_ranks_and_truncates (self : VectorStore) (m : encoder)
    (query : str) (limit : Z) :
  VECTORS_ENABLED self = true -> model self = Some m ->
  Forall (fun r => rankable (m query) r = true) (embeddings self) ->
  (0 <= limit)%Z ->
  exists ranked,
    ranking (m query) (embeddings self) = Return ranked
    /\ search self query limit = Return (map fst (firstn (Z.to_nat limit) ranked))
    /\ Permutation ranked (scored (m query) (embeddings self))
    /\ (no_nan (scored (m query) (embeddings self)) ->
        descending ranked
        /\ forall k, tied_with k ranked
                     = tied_with k (scored (m query) (embeddings self)))
    /\ length (map fst (firstn (Z.to_nat limit) ranked))
       = Nat.min (Z.to_nat limit) (length (embeddings self))
    /\ (embeddings self = [] -> search self query limit = Return [])
    /\ (limit = 0%Z -> search self query limit = Return []).
Proof.
  intros E M R L.
  exists (sort_desc (scored (m query) (embeddings self))).
  assert (S : search self query limit
              = Return (map fst (firstn (Z.to_nat limit)
                          (sort_desc (scored (m query) (embeddings self)))))).
  { rewrite (search_rankable self query limit E M R), slice_take by exact L.
    reflexivity. }
  split; [exact (@ranking_rankable (m query) (embeddings self) R)|].
  split; [exact S|].
  split; [apply sort_desc_perm|].
  split.
  { intros N. split; [apply sort_desc_descending, N|].
    intros k. apply sort_desc_tied. }
  split.
  { rewrite length_map, length_firstn, sort_desc_length.
    unfold scored. rewrite length_map. reflexivity. }
  split.
  - intros Em. rewrite S, Em. simpl. rewrite firstn_nil. reflexivity.
  - intros ->. rewrite S. reflexivity.
Qed.

Lemma search_ranks_and_truncates_witness :
  search (store_of [mkRow 1 Null (Json [1%float]) 0;
                    mkRow 2 Null (Json [(-1)%float]) 0;
                    mkRow 3 (Json [1%float]) Null 0]) [] 2
  = Return [3%Z; 1%Z].
Proof.
  destruct (@search_ranks_and_truncates
              (store_of [mkRow 1 Null (Json [1%float]) 0;
                         mkRow 2 Null (Json [(-1)%float]) 0;
                         mkRow 3 (Json [1%float]) Null 0])
              unit_encoder [] 2 eq_refl eq_refl)
    as (ranked & Hr & Hs & _).
  - repeat constructor.
  - lia.
  - rewrite Hs. vm_compute in Hr. injection Hr as <-. reflexivity.
Defined.

(** C7 fails as stated: a table of two records, one of them with an
    unreadable vector, yields no id at all for [limit = 5], not
    [min(5, 2) = 2] ids; so does a table whose record holds a vector
    that is not of the query's size. *)
Lemma search_may_return_fewer_than_min :
  search (store_of [mkRow 1 Null (Json [1%float]) 0; mkRow 2 Null Garbled 0]) [] 5
  = Return []
  /\ search (store_of [mkRow 1 Null (Json [1%float; 2%float]) 0]) [] 5 = Return []
  /\ Nat.min (Z.to_nat 5)
       (length (embeddings
          (store_of [mkRow 1 Null (Json [1%float]) 0; mkRow 2 Null Garbled 0])))
     = 2%nat.
Proof. repeat split. Qed.

(** C10 (as the code has it). When every stored record is rankable for
    the query, a negative limit [-k] with [0 < k <= n] (n records) makes
    [search] return the ids of the ranking without its last [k] entries:
    [n - k] ids, which is the empty list exactly when [k = n]. It
    returns normally. *)
Theorem search_negative_limit (self : VectorStore) (m : encoder)
    (query : str) (k : nat) :
  VECTORS_ENABLED self = true -> model self = Some m ->
  Forall (fun r => rankable (m query) r = true) (embeddings self) ->
  (0 < k <= length (embeddings self))%nat ->
  exists ranked,
    ranking (m query) (embeddings self) = Return ranked
    /\ length ranked = length (embeddings self)
    /\ search self query (- Z.of_nat k)
       = Return (map fst (firstn (length ranked - k) ranked))
    /\ length (map fst (firstn (length ranked - k) ranked))
       = (length (embeddings self) - k)%nat
    /\ (search self query (- Z.of_nat k) = Return []
        <-> k = length (embeddings self)).
Proof.
  intros E M R K.
  exists (sort_desc (scored (m query) (embeddings self))).
  assert (Len : length (sort_desc (scored (m query) (embeddings self)))
                = length (embeddings self)).
  { rewrite sort_desc_length. unfold scored. apply length_map. }
  assert (S : search self query (- Z.of_nat k)
              = Return (map fst
                  (firstn (length (sort_desc (scored (m query) (embeddings self))) - k)
                     (sort_desc (scored (m query) (embeddings self)))))).
  { rewrite (search_rankable self query (- Z.of_nat k) E M R).
    rewrite slice_drop_last by (rewrite Len; exact K). reflexivity. }
  assert (L : length (map fst
                (firstn (length (sort_desc (scored (m query) (embeddings self))) - k)
                   (sort_desc (scored (m query) (embeddings self)))))
              = (length (embeddings self) - k)%nat).
  { rewrite length_map, length_firstn, Len. lia. }
  split; [exact (@ranking_rankable (m query) (embeddings self) R)|].
  split; [exact Len|].
  split; [exact S|].
  split; [exact L|].
  rewrite S. split.
  - intros H. injection H as H. rewrite H in L. simpl in L. lia.
  - intros ->. rewrite Len, Nat.sub_diag. reflexivity.
Qed.

Lemma search_negative_limit_witness :
  search (store_of [mkRow 1 Null (Json [1%float]) 0;
                    mkRow 2 Null (Json [(-1)%float]) 0;
                    mkRow 3 (Json [1%float]) Null 0]) [] (-1)
  = Return [3%Z; 1%Z].
Proof.
  destruct (@search_negative_limit
              (store_of [mkRow 1 Null (Json [1%float]) 0;
                         mkRow 2 Null (Json [(-1)%float]) 0;
                         mkRow 3 (Json [1%float]) Null 0])
              unit_encoder [] 1 eq_refl eq_refl)
    as (ranked & Hr & _ & Hs & _).
  - repeat constructor.
  - simpl. lia.
  - change (-1)%Z with (- Z.of_nat 1)%Z. rewrite Hs.
    vm_compute in Hr. injection Hr as <-. reflexivity.
Defined.

(** C10 fails as stated at [k = n]: with one rankable record and
    [limit = -1], [search] returns the empty list. *)
Lemma negative_limit_can_return_nothing :
  rankable (unit_encoder []) (mkRow 1 Null (Json [1%float]) 0) = true
  /\ search (store_of [mkRow 1 Null (Json [1%float]) 0]) [] (-1) = Return [].
Proof. split; reflexivity. Qed.

Lemma one_record_per_paper_witness :
  select 4 (embeddings (run (store_of [mkRow 4 Garbled Null 1])
     [mkCall 10 4 ["a"%char] []; mkCall 20 4 [] ["b"%char]]))
  = [mkRow 4 (Json []) (Json [1%float]) 20].
Proof.
  exact (proj2 (proj2 one_record_per_paper)
           (store_of [mkRow 4 Garbled Null 1]) unit_encoder
           10%Z 20%Z 4%Z ["a"%char] [] [] ["b"%char] eq_refl eq_refl eq_refl).
Defined.

(** C3. What [add_embedding] encodes for the content. For every
    encoder, the content vector stored for the paper is the encoding of
    the sample: for a content of more than 5000 characters, of its first
    1500 characters, a space, the 1500 characters from index
    [len//2 - 750] up to [len//2 + 750], a space, and its last 1500
    characters, in that order and without removing overlaps (4502
    characters in all); for a content of at most 5000 characters, of
    the content unchanged (an empty content is not sent to the encoder
    and is stored as the empty vector). The call is one that goes
    through: provider available, [paper_id] a signed 64-bit integer. *)
Theorem add_embedding_encodes_sample (self : VectorStore) (m : encoder)
    (now pid : Z) (title content : str) :
  VECTORS_ENABLED self = true -> model self = Some m -> int64 pid = true ->
  fst (add_embedding self now pid title content) = Return true
  /\ ((5000 < length content)%nat ->
      content_sample content = three_slices content
      /\ length (three_slices content) = 4502%nat
      /\ map content_vector
           (select pid (embeddings (snd (add_embedding self now pid title content))))
         = [json_dumps (m (three_slices content))])
  /\ ((length content <= 5000)%nat ->
      content_sample content = content
      /\ map content_vector
           (select pid (embeddings (snd (add_embedding self now pid title content))))
         = [json_dumps (if truthy content then m content else [])]).
Proof.
  intros E M I.
  rewrite (@add_embedding_available self m now pid title content E M I).
  simpl. rewrite select_insert_or_replace. simpl.
  split; [reflexivity|].
  destruct (content_sample_three_slices content) as [Long Short].
  split; intros H.
  - destruct (Long H) as (S & _ & L). rewrite S in L.
    split; [exact S|]. split; [exact L|].
    unfold content_embedding. rewrite S.
    destruct (three_slices content); [discriminate L|reflexivity].
  - destruct (Short H) as (S & _). split; [exact S|].
    unfold content_embedding. rewrite S. reflexivity.
Qed.

Lemma add_embedding_encodes_sample_witness :
  map content_vector
    (select 1 (embeddings (snd (add_embedding (store_of []) 0 1 []
                                  (repeat "a"%char 5001)))))
  = [json_dumps (unit_encoder (three_slices (repeat "a"%char 5001)))].
Proof.
  destruct (@add_embedding_encodes_sample (store_of []) unit_encoder 0 1 []
              (repeat "a"%char 5001) eq_refl eq_refl eq_refl) as (_ & Long & _).
  apply Long. rewrite repeat_length. apply Nat.lt_succ_diag_r.
Defined.

(** ** What [search] can return *)

Lemma score_row_id (q : list float) (r : row) (p : Z * float) :
  score_row q r = Return p -> fst p = paper_id r.
Proof.
  unfold score_row.
  destruct (load_vector (title_vector r)) as [tv|]; simpl; [|discriminate].
  destruct (load_vector (content_vector r)) as [cv|]; simpl; [|discriminate].
  destruct (if truthy tv
            then c <- cosine_similarity q tv;; Return (c * title_weight)%float
            else Return 0%float) as [ts|]; simpl; [|discriminate].
  destruct (if truthy cv then cosine_similarity q cv else Return 0%float)
    as [cs|]; simpl; [|discriminate].
  intros H. injection H as <-. reflexivity.
Qed.

Lemma for_each_ids (q : list float) (rows : table) (results : list (Z * float)) :
  for_each (score_row q) rows = Return results ->
  map fst results = map paper_id rows.
Proof.
  revert results. induction rows as [|r rows IH]; simpl; intros results H.
  - injection H as <-. reflexivity.
  - destruct (score_row q r) as [p|] eqn:Hp; simpl in H; [|discriminate].
    destruct (for_each (score_row q) rows) as [ps|]; simpl in H; [|discriminate].
    injection H as <-. simpl. rewrite (score_row_id _ _ Hp), (IH ps eq_refl).
    reflexivity.
Qed.

Lemma slice_incl {A} (s : list A) (start stop : option Z) :
  incl (slice s start stop) s.
Proof.
  unfold slice. set (n := Z.to_nat _). set (lo := Z.to_nat _).
  intros x Hx.
  rewrite <- (firstn_skipn lo s). apply in_or_app. right.
  rewrite <- (firstn_skipn n (skipn lo s)). apply in_or_app. left. exact Hx.
Qed.

Lemma slice_NoDup {A} (s : list A) (start stop : option Z) :
  NoDup s -> NoDup (slice s start stop).
Proof.
  unfold slice. intros H.
  set (n := Z.to_nat _). set (lo := Z.to_nat _).
  assert (Hs : NoDup (skipn lo s)).
  { rewrite <- (firstn_skipn lo s) in H. exact (NoDup_app_remove_l _ _ H). }
  rewrite <- (firstn_skipn n (skipn lo s)) in Hs.
  exact (NoDup_app_remove_r _ _ Hs).
Qed.

Lemma map_slice {A B} (f : A -> B) (s : list A) (start stop : option Z) :
  map f (slice s start stop) = slice (map f s) start stop.
Proof.
  unfold slice, len. rewrite length_map, skipn_map, firstn_map. reflexivity.
Qed.

(** Whatever the table holds and whatever the limit, [search] returns a
    list and never raises. *)
Theorem search_never_raises (self : VectorStore) (query : str) (limit : Z) :
  exists ids, search self query limit = Return ids.
Proof. apply search_returns. Qed.

(** The ids [search] returns are [paper_id]s of stored records, and no
    id comes twice when the table respects its primary key. *)
Theorem search_ids_come_from_store (self : VectorStore) (query : str) (limit : Z)
    (ids : list Z) :
  search self query limit = Return ids ->
  incl ids (map paper_id (embeddings self))
  /\ (keyed (embeddings self) -> NoDup ids).
Proof.
  unfold search.
  assert (Nil : Return (@nil Z) = Return ids ->
                incl ids (map paper_id (embeddings self))
                /\ (keyed (embeddings self) -> NoDup ids)).
  { intros H. injection H as <-. split; [intros x []|constructor]. }
  destruct (VECTORS_ENABLED self); [|exact Nil].
  destruct (model self) as [m|]; [|exact Nil].
  destruct (negb (truthy (embeddings self))); [exact Nil|].
  unfold ranking.
  destruct (for_each (score_row (m query)) (embeddings self)) as [results|] eqn:F;
    simpl; [|exact Nil].
  apply for_each_ids in F. intros H. injection H as <-.
  rewrite map_slice.
  assert (P : Permutation (map fst (sort_desc results))
                          (map paper_id (embeddings self))).
  { rewrite <- F. apply Permutation_map, sort_desc_perm. }
  split.
  - intros x Hx. apply (Permutation_in _ P). exact (@slice_incl _ _ _ _ x Hx).
  - intros K. apply slice_NoDup.
    exact (Permutation_NoDup (Permutation_sym P) (keyed_NoDup K)).
Qed.

Lemma search_ids_come_from_store_witness :
  incl [3%Z; 1%Z] [1%Z; 2%Z; 3%Z].
Proof.
  exact (proj1 (@search_ids_come_from_store
     (store_of [mkRow 1 Null (Json [1%float]) 0;
                mkRow 2 Null (Json [(-1)%float]) 0;
                mkRow 3 (Json [1%float]) Null 0]) [] 2 [3%Z; 1%Z] eq_refl)).
Defined.

(** * Further properties of the code *)

(** ** Length of slices and of the sample *)

Lemma length_slice {A} (s : list A) (start stop : option Z) :
  (length (slice s start stop) <= length s)%nat.
Proof.
  unfold slice. rewrite length_firstn, length_skipn. lia.
Qed.

Lemma length_slice_window {A} (s : list A) (lo hi : Z) :
  (0 <= lo <= hi)%Z -> (hi <= len s)%Z ->
  length (slice s (Some lo) (Some hi)) = Z.to_nat (hi - lo).
Proof.
  intros H1 H2. unfold slice, adjust_index. unfold len in *.
  rewrite length_firstn, length_skipn.
  destruct (Z.ltb_spec lo 0); [lia|].
  destruct (Z.ltb_spec hi 0); [lia|].
  destruct (Z.leb_spec (Z.of_nat (length s)) lo),
           (Z.leb_spec (Z.of_nat (length s)) hi); lia.
Qed.

Lemma content_sample_long (content : str) :
  (5000 < length content)%nat -> length (content_sample content) = 4502%nat.
Proof.
  intros H. unfold content_sample, space.
  assert (Hn : (5000 < len content)%Z) by (unfold len; lia).
  destruct (Z.ltb_spec 5000 (len content)) as [_|]; [|lia].
  pose proof (Z.mul_div_le (len content) 2 eq_refl) as D1.
  pose proof (Z.mul_succ_div_gt (len content) 2 eq_refl) as D2.
  rewrite !length_app. cbn [length].
  rewrite (length_slice_window content) by lia.
  unfold slice, adjust_index. fold (len content).
  rewrite !length_firstn, !length_skipn. fold (len content).
  destruct (Z.ltb_spec 1500 0); [lia|].
  destruct (Z.leb_spec (len content) 1500); [lia|].
  destruct (Z.ltb_spec (-1500) 0); [|lia].
  destruct (Z.ltb_spec (-1500 + len content) 0); [lia|].
  unfold len in *. lia.
Qed.

Lemma content_sample_short (content : str) :
  (length content <= 5000)%nat -> content_sample content = content.
Proof.
  intros H. unfold content_sample, len.
  destruct (Z.ltb_spec 5000 (Z.of_nat (length content))); [lia|reflexivity].
Qed.

(** The text handed to the encoder is bounded: whatever the content,
    its sample has at most 5000 characters; sampling a sample changes
    nothing; and the sample is empty only for an empty content. *)
Theorem content_sample_bounded (content : str) :
  (length (content_sample content) <= 5000)%nat
  /\ content_sample (content_sample content) = content_sample content
  /\ (content_sample content = [] <-> content = []).
Proof.
  destruct (Nat.le_gt_cases (length content) 5000) as [S|L].
  - rewrite (content_sample_short content S).
    rewrite (content_sample_short content S). repeat split; auto.
  - pose proof (content_sample_long content L) as E.
    split; [lia|]. split.
    + apply content_sample_short. lia.
    + split; intros H.
      * rewrite H in E. discriminate E.
      * subst content. simpl in L. lia.
Qed.

(** ** Frame and size of the table under [add_embedding] *)

Section TableFrame.

Implicit Types (r : row) (t : table).

Lemma select_insert_row_other pid r t :
  paper_id r <> pid -> select pid (insert_row r t) = select pid t.
Proof.
  intros N. apply Z.eqb_neq in N. unfold select.
  induction t as [|x t IH]; simpl.
  - rewrite N. reflexivity.
  - destruct (paper_id r <? paper_id x)%Z; simpl.
    + rewrite N. reflexivity.
    + rewrite IH. reflexivity.
Qed.

Lemma select_delete_conflicts_other pid pid' t :
  pid' <> pid -> select pid' (delete_conflicts pid t) = select pid' t.
Proof.
  intros N. unfold select, delete_conflicts.
  induction t as [|x t IH]; simpl; [reflexivity|].
  destruct (Z.eqb_spec (paper_id x) pid) as [E|E]; simpl.
  - destruct (Z.eqb_spec (paper_id x) pid'); [congruence|exact IH].
  - rewrite IH. reflexivity.
Qed.

Lemma select_insert_or_replace_other now pid pid' tv cv t :
  pid' <> pid -> select pid' (insert_or_replace now pid tv cv t) = select pid' t.
Proof.
  intros N. unfold insert_or_replace.
  rewrite select_insert_row_other by (simpl; congruence).
  apply select_delete_conflicts_other, N.
Qed.

Lemma length_insert_row r t : length (insert_row r t) = S (length t).
Proof.
  induction t as [|x t IH]; simpl; [reflexivity|].
  destruct (paper_id r <? paper_id x)%Z; simpl; [reflexivity|].
  rewrite IH. reflexivity.
Qed.

Lemma length_delete_conflicts pid t :
  (length (delete_conflicts pid t) + length (select pid t))%nat = length t.
Proof.
  unfold delete_conflicts, select.
  induction t as [|x t IH]; simpl; [reflexivity|].
  destruct (paper_id x =? pid)%Z; simpl; lia.
Qed.

Lemma keyed_select pid t :
  keyed t -> select pid t = [] \/ exists r, select pid t = [r] /\ paper_id r = pid.
Proof.
  unfold keyed. induction 1 as [|x t St IH Hx]; [left; reflexivity|].
  unfold select in *. simpl.
  destruct (Z.eqb_spec (paper_id x) pid) as [E|E].
  - right. exists x. split; [|exact E]. f_equal. apply select_absent.
    eapply Forall_impl; [|exact Hx]. intros a Ha. cbv beta in Ha. lia.
  - exact IH.
Qed.

Lemma keyed_perm_eq t1 t2 : keyed t1 -> keyed t2 -> Permutation t1 t2 -> t1 = t2.
Proof.
  unfold keyed. intros K1. revert t2.
  induction K1 as [|r t1 K1 IH H1]; intros t2 K2 P.
  - apply Permutation_nil in P. subst. reflexivity.
  - destruct t2 as [|r2 t2].
    + apply Permutation_sym, Permutation_nil in P. discriminate P.
    + inversion K2 as [|? ? K2' H2]; subst.
      assert (E : r = r2).
      { assert (I1 : In r (r2 :: t2)) by (apply (Permutation_in _ P); left; reflexivity).
        assert (I2 : In r2 (r :: t1))
          by (apply (Permutation_in _ (Permutation_sym P)); left; reflexivity).
        destruct I1 as [I1|I1]; [congruence|].
        destruct I2 as [I2|I2]; [congruence|].
        rewrite Forall_forall in H1, H2.
        specialize (H1 _ I2). specialize (H2 _ I1). lia. }
      subst r2. f_equal. apply IH; [exact K2'|].
      exact (Permutation_cons_inv P).
Qed.

Lemma delete_conflicts_perm pid t t' :
  Permutation t t' -> Permutation (delete_conflicts pid t) (delete_conflicts pid t').
Proof.
  unfold delete_conflicts.
  induction 1 as [|x l l' _ IH|x y l|l l' l'' _ IH1 _ IH2]; simpl.
  - constructor.
  - destruct (negb (paper_id x =? pid)%Z); [apply perm_skip|]; exact IH.
  - destruct (negb (paper_id x =? pid)%Z), (negb (paper_id y =? pid)%Z);
      try apply Permutation_refl. apply perm_swap.
  - exact (perm_trans IH1 IH2).
Qed.

Lemma insert_row_perm r t : Permutation (insert_row r t) (r :: t).
Proof.
  induction t as [|x t IH]; simpl; [apply Permutation_refl|].
  destruct (paper_id r <? paper_id x)%Z; [apply Permutation_refl|].
  apply perm_trans with (x :: r :: t); [apply perm_skip, IH|apply perm_swap].
Qed.

Lemma delete_conflicts_comm p1 p2 t :
  delete_conflicts p1 (delete_conflicts p2 t)
  = delete_conflicts p2 (delete_conflicts p1 t).
Proof.
  unfold delete_conflicts. induction t as [|x t IH]; simpl; [reflexivity|].
  destruct (negb (paper_id x =? p2)%Z) eqn:E2, (negb (paper_id x =? p1)%Z) eqn:E1;
    simpl; rewrite ?E1, ?E2, IH; reflexivity.
Qed.

Lemma insert_or_replace_perm now pid tv cv t :
  Permutation (insert_or_replace now pid tv cv t)
              (mkRow pid tv cv now :: delete_conflicts pid t).
Proof. apply insert_row_perm. Qed.

Lemma insert_or_replace_comm n1 p1 tv1 cv1 n2 p2 tv2 cv2 t :
  keyed t -> p1 <> p2 ->
  insert_or_replace n1 p1 tv1 cv1 (insert_or_replace n2 p2 tv2 cv2 t)
  = insert_or_replace n2 p2 tv2 cv2 (insert_or_replace n1 p1 tv1 cv1 t).
Proof.
  intros K N. apply keyed_perm_eq.
  - apply insert_or_replace_keyed, insert_or_replace_keyed, K.
  - apply insert_or_replace_keyed, insert_or_replace_keyed, K.
  - assert (Half : forall n p tv cv n' p' tv' cv', p <> p' ->
              Permutation
                (insert_or_replace n p tv cv (insert_or_replace n' p' tv' cv' t))
                (mkRow p tv cv n :: mkRow p' tv' cv' n'
                   :: delete_conflicts p (delete_conflicts p' t))).
    { intros n p tv cv n' p' tv' cv' Np.
      eapply perm_trans; [apply insert_or_replace_perm|]. apply perm_skip.
      eapply perm_trans;
        [apply delete_conflicts_perm, insert_or_replace_perm|].
      unfold delete_conflicts at 1. simpl.
      destruct (Z.eqb_spec p' p); [congruence|]. simpl.
      apply Permutation_refl. }
    eapply perm_trans; [apply Half, N|].
    eapply perm_trans; [apply perm_swap|].
    rewrite delete_conflicts_comm.
    apply Permutation_sym, Half. congruence.
Qed.

End TableFrame.

(** ** [add_embedding] and the rest of the table *)

(** Indexing one paper leaves the record of every other paper as it
    was, [created_at] included, whether or not the provider is
    available. *)
Theorem add_embedding_keeps_other_records (self : VectorStore)
    (now pid : Z) (title content : str) (other : Z) :
  other <> pid ->
  select other (embeddings (snd (add_embedding self now pid title content)))
  = select other (embeddings self).
Proof.
  intros N.
  destruct (add_embedding_cases self now pid title content)
    as [F|(m & _ & _ & _ & S)].
  - rewrite F. reflexivity.
  - rewrite S. simpl. apply select_insert_or_replace_other, N.
Qed.

Lemma add_embedding_keeps_other_records_witness :
  select 2 (embeddings (snd (add_embedding
     (store_of [mkRow 1 Null Null 5; mkRow 2 (Json [1%float]) Garbled 7])
     9 1 ["t"%char] [])))
  = [mkRow 2 (Json [1%float]) Garbled 7].
Proof.
  apply (@add_embedding_keeps_other_records
           (store_of [mkRow 1 Null Null 5; mkRow 2 (Json [1%float]) Garbled 7])
           9 1 ["t"%char] [] 2).
  discriminate.
Defined.

(** On a table that respects its primary key, an [add_embedding] that
    returns [True] adds exactly one record when the paper was not
    indexed yet and keeps the number of records when it was; one that
    returns [False] leaves the table as it is. *)
Theorem add_embedding_record_count (self : VectorStore)
    (now pid : Z) (title content : str) :
  keyed (embeddings self) ->
  (fst (add_embedding self now pid title content) = Return true ->
   length (embeddings (snd (add_embedding self now pid title content)))
   = match select pid (embeddings self) with
     | [] => S (length (embeddings self))
     | _ :: _ => length (embeddings self)
     end)
  /\ (fst (add_embedding self now pid title content) = Return false ->
      embeddings (snd (add_embedding self now pid title content))
      = embeddings self).
Proof.
  intros K.
  destruct (add_embedding_cases self now pid title content)
    as [F|(m & _ & _ & _ & S)];
    [rewrite F; simpl; split; [discriminate|reflexivity]|].
  rewrite S. simpl. split; [intros _|discriminate].
  unfold insert_or_replace. rewrite length_insert_row.
  pose proof (length_delete_conflicts pid (embeddings self)) as L.
  destruct (keyed_select pid K) as [S0|(r & S1 & _)].
  - rewrite S0 in *. simpl in L. lia.
  - rewrite S1 in *. simpl in L. lia.
Qed.

Lemma add_embedding_record_count_witness :
  length (embeddings (snd (add_embedding
     (store_of [mkRow 1 Null Null 5; mkRow 2 Null Null 7]) 9 2 ["t"%char] [])))
  = 2%nat.
Proof.
  refine (proj1 (@add_embedding_record_count
            (store_of [mkRow 1 Null Null 5; mkRow 2 Null Null 7])
            9 2 ["t"%char] [] _) eq_refl).
  repeat constructor.
Defined.

Lemma run_unavailable (calls : list call) (self : VectorStore) :
  VECTORS_ENABLED self = false \/ model self = None -> run self calls = self.
Proof.
  intros U. unfold run.
  induction calls as [|c calls IH]; simpl; [reflexivity|].
  unfold step at 2. rewrite (add_embedding_unavailable self _ _ _ _ U). exact IH.
Qed.

Lemma score_row_same_record (q : list float) (r r' : row) :
  same_record r r' -> score_row q r = score_row q r'.
Proof.
  intros (Ep & Et & Ec). unfold score_row. rewrite Ep, Et, Ec. reflexivity.
Qed.

Lemma for_each_same_record (q : list float) (rows rows' : table) :
  Forall2 same_record rows rows' ->
  for_each (score_row q) rows = for_each (score_row q) rows'.
Proof.
  induction 1 as [|r r' rows rows' Hr _ IH]; simpl; [reflexivity|].
  rewrite (@score_row_same_record q r r' Hr), IH. reflexivity.
Qed.

Lemma step_eq (self : VectorStore) (c : call) :
  step self c
  = match model self with
    | Some m =>
        if VECTORS_ENABLED self && int64 (call_paper_id c)
        then mkStore true (Some m)
               (insert_or_replace (call_time c) (call_paper_id c)
                  (json_dumps (title_embedding m (call_title c)))
                  (json_dumps (content_embedding m (call_content c)))
                  (embeddings self))
        else self
    | None => self
    end.
Proof.
  unfold step.
  destruct (add_embedding_cases self (call_time c) (call_paper_id c)
              (call_title c) (call_content c)) as [F|(m & E & M & I & S)].
  - destruct (model self) as [m|] eqn:M; [|rewrite F; reflexivity].
    destruct (VECTORS_ENABLED self) eqn:E; [|rewrite F; reflexivity].
    destruct (int64 (call_paper_id c)) eqn:I; [|rewrite F; reflexivity].
    rewrite (@add_embedding_available self m _ _ _ _ E M I) in F.
    discriminate F.
  - rewrite S, M, E, I. reflexivity.
Qed.

Lemma run_swap (self : VectorStore) (c1 c2 : call) :
  keyed (embeddings self) ->
  call_paper_id c1 <> call_paper_id c2 ->
  run self [c1; c2] = run self [c2; c1].
Proof.
  intros K N. unfold run. simpl. rewrite (step_eq self c1), (step_eq self c2).
  destruct (model self) as [m|] eqn:M; [|rewrite !step_eq, M; reflexivity].
  destruct (VECTORS_ENABLED self) eqn:E; simpl;
    [|rewrite !step_eq, M, E; reflexivity].
  destruct (int64 (call_paper_id c1)) eqn:I1, (int64 (call_paper_id c2)) eqn:I2;
    rewrite !step_eq; simpl; rewrite ?M, ?E, ?I1, ?I2; simpl; try reflexivity.
  f_equal. apply insert_or_replace_comm; [exact K|congruence].
Qed.

Lemma same_record_refl (t : table) : Forall2 same_record t t.
Proof. induction t; constructor; [repeat split|assumption]. Qed.

Lemma delete_conflicts_same_record (pid : Z) (t t' : table) :
  Forall2 same_record t t' ->
  Forall2 same_record (delete_conflicts pid t) (delete_conflicts pid t').
Proof.
  unfold delete_conflicts.
  induction 1 as [|r r' t t' Hr _ IH]; simpl; [constructor|].
  destruct Hr as (Ep & Et & Ec). rewrite <- Ep.
  destruct (negb (paper_id r =? pid)%Z); [constructor; [repeat split|]|];
    assumption.
Qed.

Lemma insert_row_same_record (r r' : row) (t t' : table) :
  same_record r r' -> Forall2 same_record t t' ->
  Forall2 same_record (insert_row r t) (insert_row r' t').
Proof.
  intros Hr. induction 1 as [|x x' t t' Hx Ht IH]; simpl.
  - constructor; [exact Hr|constructor].
  - destruct Hr as (Ep & Et & Ec). destruct Hx as (Xp & Xt & Xc).
    rewrite <- Ep, <- Xp.
    destruct (paper_id r <? paper_id x)%Z.
    + constructor; [repeat split; assumption|].
      constructor; [repeat split; assumption|exact Ht].
    + constructor; [repeat split; assumption|exact IH].
Qed.

Lemma step_same_store (s s' : VectorStore) (n n' pid : Z) (title content : str) :
  same_store s s' ->
  same_store (step s (mkCall n pid title content))
             (step s' (mkCall n' pid title content)).
Proof.
  intros S. pose proof S as (E & M & T). rewrite !step_eq. simpl.
  rewrite <- E, <- M. clear E M.
  destruct (model s) as [m|]; [|exact S].
  destruct (VECTORS_ENABLED s && int64 pid); [|exact S].
  repeat split. simpl. unfold insert_or_replace.
  apply insert_row_same_record; [repeat split|].
  apply delete_conflicts_same_record, T.
Qed.

Lemma search_same_store (s s' : VectorStore) (query : str) (limit : Z) :
  same_store s s' -> search s query limit = search s' query limit.
Proof.
  intros (E & M & T). unfold search. rewrite <- E, <- M.
  destruct (VECTORS_ENABLED s); [|reflexivity].
  destruct (model s) as [m|]; [|reflexivity].
  unfold ranking.
  rewrite (@for_each_same_record (m query) (embeddings s) (embeddings s') T).
  destruct T; reflexivity.
Qed.

(** On a table that respects its primary key, indexing two different
    papers in either order leaves the same records: whatever the clock
    read at each of the calls, the two stores agree, row by row in scan
    order, on [paper_id], [title_vector] and [content_vector] (only
    [created_at] tells the order), and every search gives the same
    result on both. *)
Theorem add_embedding_order_irrelevant (self : VectorStore)
    (t1 t2 t1' t2' p1 p2 : Z) (title1 content1 title2 content2 : str) :
  keyed (embeddings self) ->
  p1 <> p2 ->
  same_store
    (run self [mkCall t1 p1 title1 content1; mkCall t2 p2 title2 content2])
    (run self [mkCall t1' p2 title2 content2; mkCall t2' p1 title1 content1])
  /\ forall query limit,
       search (run self [mkCall t1 p1 title1 content1;
                         mkCall t2 p2 title2 content2]) query limit
       = search (run self [mkCall t1' p2 title2 content2;
                           mkCall t2' p1 title1 content1]) query limit.
Proof.
  intros K N.
  assert (S : same_store
                (run self [mkCall t1 p1 title1 content1;
                           mkCall t2 p2 title2 content2])
                (run self [mkCall t1' p2 title2 content2;
                           mkCall t2' p1 title1 content1])).
  { rewrite (@run_swap self (mkCall t1 p1 title1 content1)
               (mkCall t2 p2 title2 content2) K N).
    unfold run. simpl.
    apply step_same_store, step_same_store.
    repeat split. apply same_record_refl. }
  split; [exact S|].
  intros query limit. apply search_same_store, S.
Qed.

Lemma add_embedding_order_irrelevant_witness :
  same_store
    (run (store_of []) [mkCall 1 8 ["a"%char] []; mkCall 2 3 [] ["b"%char]])
    (run (store_of []) [mkCall 1 3 [] ["b"%char]; mkCall 2 8 ["a"%char] []]).
Proof.
  apply (@add_embedding_order_irrelevant (store_of [])
           1 2 1 2 8 3 ["a"%char] [] [] ["b"%char]).
  - constructor.
  - discriminate.
Defined.

(** [__init__] when the import failed or the model constructor raised:
    the store it builds never writes. After any sequence of
    [add_embedding] calls the table is the one found at [db_path]
    (empty if there was none), and every search returns the empty
    list. *)
Theorem failed_load_store_is_frozen (enabled : bool) (loaded : outcome encoder)
    (file : option table) (calls : list call) (query : str) (limit : Z) :
  enabled = false \/ (exists e, loaded = Raise e) ->
  embeddings (run (init enabled loaded file) calls) = create_table file
  /\ search (run (init enabled loaded file) calls) query limit = Return [].
Proof.
  intros H.
  assert (U : VECTORS_ENABLED (init enabled loaded file) = false
              \/ model (init enabled loaded file) = None).
  { destruct H as [->|[e ->]]; [left; reflexivity|].
    right. simpl. destruct enabled; reflexivity. }
  rewrite (@run_unavailable calls _ U). split; [reflexivity|].
  unfold search. destruct U as [U|U]; rewrite U; [reflexivity|].
  destruct (VECTORS_ENABLED _); reflexivity.
Qed.

Lemma failed_load_store_is_frozen_witness :
  embeddings (run (init true (Raise RuntimeError) (Some [mkRow 1 Null Null 0]))
                [mkCall 3 2 ["t"%char] []])
  = create_table (Some [mkRow 1 Null Null 0]).
Proof.
  apply (@failed_load_store_is_frozen true (Raise RuntimeError)
           (Some [mkRow 1 Null Null 0]) [mkCall 3 2 ["t"%char] []] [] 10).
  right. exists RuntimeError. reflexivity.
Defined.

(** ** When [search] finds nothing, and how much it returns *)

Lemma cosine_similarity_misaligned (q v : list float) :
  length q <> length v -> cosine_similarity q v = Raise ValueError.
Proof.
  intros N. unfold cosine_similarity, Np.dot.
  apply Nat.eqb_neq in N. rewrite N. reflexivity.
Qed.

Lemma score_row_unrankable (q : list float) (r : row) :
  rankable q r = false -> exists e, score_row q r = Raise e.
Proof.
  unfold rankable, score_row. intros H.
  destruct (readable (title_vector r)) eqn:Rt;
    [|rewrite (load_vector_garbled _ Rt); simpl; eauto].
  destruct (readable (content_vector r)) eqn:Rc;
    [|rewrite (load_vector_readable _ Rt), (load_vector_garbled _ Rc); simpl; eauto].
  rewrite (load_vector_readable _ Rt), (load_vector_readable _ Rc). simpl.
  simpl in H. unfold fits in H.
  destruct (truthy (vector_of (title_vector r))) eqn:Tt; simpl in H.
  - destruct (Nat.eqb_spec (length q) (length (vector_of (title_vector r))))
      as [E|E]; simpl in H.
    + rewrite (@cosine_similarity_aligned q _ E). simpl.
      destruct (truthy (vector_of (content_vector r))); simpl in H;
        [|discriminate].
      apply Nat.eqb_neq in H.
      rewrite (@cosine_similarity_misaligned _ _ H). simpl. eauto.
    + rewrite (@cosine_similarity_misaligned _ _ E). simpl. eauto.
  - destruct (truthy (vector_of (content_vector r))); simpl in H; [|discriminate].
    apply Nat.eqb_neq in H.
    rewrite (@cosine_similarity_misaligned _ _ H). simpl. eauto.
Qed.

Lemma for_each_unrankable (q : list float) (rows : table) :
  Exists (fun r => rankable q r = false) rows ->
  exists e, for_each (score_row q) rows = Raise e.
Proof.
  induction 1 as [r rows Hr|r rows _ [e IH]]; simpl.
  - destruct (@score_row_unrankable q r Hr) as [e He]. rewrite He. simpl. eauto.
  - destruct (score_row q r); simpl; [|eauto].
    rewrite IH. simpl. eauto.
Qed.

Lemma rankable_all_or_not (q : list float) (rows : table) :
  Forall (fun r => rankable q r = true) rows
  \/ Exists (fun r => rankable q r = false) rows.
Proof.
  induction rows as [|r rows [IH|IH]].
  - left. constructor.
  - destruct (rankable q r) eqn:R.
    + left. constructor; assumption.
    + right. apply Exists_cons_hd, R.
  - right. apply Exists_cons_tl, IH.
Qed.

Lemma for_each_length (q : list float) (rows : table) (results : list (Z * float)) :
  for_each (score_row q) rows = Return results -> length results = length rows.
Proof.
  intros H. apply for_each_ids in H.
  rewrite <- (length_map fst results), H. apply length_map.
Qed.

Lemma length_slice_to {A} (s : list A) (limit : Z) :
  length (slice s None (Some limit)) = kept (length s) limit.
Proof.
  unfold slice, adjust_index, kept, len.
  rewrite length_firstn, skipn_0.
  destruct (Z.ltb_spec limit 0).
  - destruct (Z.ltb_spec (limit + Z.of_nat (length s)) 0); lia.
  - destruct (Z.leb_spec (Z.of_nat (length s)) limit); lia.
Qed.

Lemma firstn_plus {A} (a b : nat) (l : list A) :
  firstn (a + b) l = firstn a l ++ firstn b (skipn a l).
Proof.
  revert l. induction a as [|a IH]; intros l; simpl; [reflexivity|].
  destruct l as [|x l]; simpl.
  - rewrite firstn_nil. reflexivity.
  - rewrite IH. reflexivity.
Qed.

(** With the provider available: if some stored record has a vector
    that [json.loads] rejects, or a non-empty vector that is not of the
    query vector's size, [search] returns the empty list; if every
    stored record can be scored against the query, the table is not
    empty and the limit is at least 1, it returns at least one id. *)
Theorem unrankable_record_empties_search (self : VectorStore) (m : encoder)
    (query : str) (limit : Z) :
  VECTORS_ENABLED self = true -> model self = Some m ->
  (Exists (fun r => rankable (m query) r = false) (embeddings self) ->
   search self query limit = Return [])
  /\ (Forall (fun r => rankable (m query) r = true) (embeddings self) ->
      embeddings self <> [] -> (1 <= limit)%Z ->
      exists id rest, search self query limit = Return (id :: rest)).
Proof.
  intros E M. split.
  - intros X. unfold search. rewrite E, M.
    destruct (embeddings self) as [|r rows] eqn:Rows; [reflexivity|].
    cbn [truthy negb]. unfold ranking.
    destruct (@for_each_unrankable _ _ X) as [e He]. rewrite He. reflexivity.
  - intros R NE L.
    rewrite (search_rankable self query limit E M R), slice_take by lia.
    pose proof (sort_desc_length (scored (m query) (embeddings self))) as Len.
    unfold scored in Len at 2. rewrite length_map in Len.
    destruct (sort_desc (scored (m query) (embeddings self))) as [|p ranked].
    + destruct (embeddings self); [congruence|discriminate Len].
    + destruct (Z.to_nat limit) as [|n] eqn:Zl; [lia|].
      simpl. eauto.
Qed.

Lemma unrankable_record_empties_search_witness :
  search (store_of [mkRow 1 Null (Json [1%float; 2%float]) 0]) [] 3 = Return [].
Proof.
  apply (proj1 (@unrankable_record_empties_search
           (store_of [mkRow 1 Null (Json [1%float; 2%float]) 0]) unit_encoder [] 3
           eq_refl eq_refl)).
  apply Exists_cons_hd. reflexivity.
Defined.

(** Whatever the table holds, [search] with a limit [>= 0] never
    returns more ids than the limit, nor more than there are records;
    with the default limit that is at most 10 ids. *)
Theorem search_respects_limit (self : VectorStore) (query : str) (limit : Z)
    (ids : list Z) :
  (0 <= limit)%Z ->
  search self query limit = Return ids ->
  (Z.of_nat (length ids) <= limit)%Z
  /\ (length ids <= length (embeddings self))%nat
  /\ (forall ids', search_default self query = Return ids' ->
                   (length ids' <= 10)%nat).
Proof.
  assert (G : forall lim ids0, (0 <= lim)%Z ->
              search self query lim = Return ids0 ->
              (Z.of_nat (length ids0) <= lim)%Z
              /\ (length ids0 <= length (embeddings self))%nat).
  { intros lim ids0 L. unfold search.
    assert (Nil : Return (@nil Z) = Return ids0 ->
                  (Z.of_nat (length ids0) <= lim)%Z
                  /\ (length ids0 <= length (embeddings self))%nat).
    { intros H. injection H as <-. simpl. lia. }
    destruct (VECTORS_ENABLED self); [|exact Nil].
    destruct (model self) as [m|]; [|exact Nil].
    destruct (negb (truthy (embeddings self))); [exact Nil|].
    unfold ranking.
    destruct (for_each (score_row (m query)) (embeddings self)) as [results|] eqn:F;
      simpl; [|exact Nil].
    apply for_each_length in F. intros H. injection H as <-.
    rewrite length_map, length_slice_to, sort_desc_length, F.
    unfold kept. destruct (Z.ltb_spec lim 0); lia. }
  intros L S. destruct (G limit ids L S) as [G1 G2].
  repeat split; trivial.
  intros ids' S'. unfold search_default in S'.
  destruct (G 10%Z ids' ltac:(lia) S') as [G3 _]. lia.
Qed.

Lemma search_respects_limit_witness :
  (Z.of_nat (length [3%Z; 1%Z]) <= 2)%Z.
Proof.
  exact (proj1 (@search_respects_limit
     (store_of [mkRow 1 Null (Json [1%float]) 0;
                mkRow 2 Null (Json [(-1)%float]) 0;
                mkRow 3 (Json [1%float]) Null 0]) [] 2 [3%Z; 1%Z]
     ltac:(discriminate) eq_refl)).
Defined.

(** Raising a non-negative limit only appends results: for every store
    and query, what [search] returns for a limit is a prefix of what it
    returns for any larger limit. *)
Theorem search_limit_prefix (self : VectorStore) (query : str) (k k' : Z) :
  (0 <= k <= k')%Z ->
  exists ids rest,
    search self query k = Return ids
    /\ search self query k' = Return (ids ++ rest).
Proof.
  intros H. unfold search.
  destruct (VECTORS_ENABLED self); [|exists [], []; split; reflexivity].
  destruct (model self) as [m|]; [|exists [], []; split; reflexivity].
  destruct (negb (truthy (embeddings self)));
    [exists [], []; split; reflexivity|].
  destruct (ranking (m query) (embeddings self)) as [results|];
    simpl; [|exists [], []; split; reflexivity].
  rewrite !slice_take by lia.
  exists (map fst (firstn (Z.to_nat k) results)),
         (map fst (firstn (Z.to_nat k' - Z.to_nat k) (skipn (Z.to_nat k) results))).
  split; [reflexivity|].
  rewrite <- map_app, <- firstn_plus.
  replace (Z.to_nat k + (Z.to_nat k' - Z.to_nat k))%nat with (Z.to_nat k') by lia.
  reflexivity.
Qed.

Lemma search_limit_prefix_witness :
  exists ids rest,
    search (store_of [mkRow 1 Null (Json [1%float]) 0;
                      mkRow 3 (Json [1%float]) Null 0]) [] 1 = Return ids
    /\ search (store_of [mkRow 1 Null (Json [1%float]) 0;
                         mkRow 3 (Json [1%float]) Null 0]) [] 2
       = Return (ids ++ rest).
Proof.
  apply (@search_limit_prefix
           (store_of [mkRow 1 Null (Json [1%float]) 0;
                      mkRow 3 (Json [1%float]) Null 0]) [] 1 2).
  lia.
Defined.

(** For a limit of either sign, when every stored record can be scored
    against the query, [search] returns [min(limit, n)] ids for
    [limit >= 0] and [max(n + limit, 0)] ids for [limit < 0], [n] being
    the number of records; a limit of [-n] or below gives the empty
    list. *)
Theorem search_length_any_limit (self : VectorStore) (m : encoder)
    (query : str) (limit : Z) :
  VECTORS_ENABLED self = true -> model self = Some m ->
  Forall (fun r => rankable (m query) r = true) (embeddings self) ->
  exists ids,
    search self query limit = Return ids
    /\ length ids = kept (length (embeddings self)) limit
    /\ ((limit <= - Z.of_nat (length (embeddings self)))%Z -> ids = []).
Proof.
  intros E M R. rewrite (search_rankable self query limit E M R).
  eexists. split; [reflexivity|].
  assert (L : length (map fst (slice (sort_desc (scored (m query) (embeddings self)))
                                 None (Some limit)))
              = kept (length (embeddings self)) limit).
  { rewrite length_map, length_slice_to, sort_desc_length.
    unfold scored. rewrite length_map. reflexivity. }
  split; [exact L|].
  intros H. apply length_zero_iff_nil. rewrite L. unfold kept.
  destruct (Z.ltb_spec limit 0); lia.
Qed.

Lemma search_length_any_limit_witness :
  exists ids,
    search (store_of [mkRow 1 Null (Json [1%float]) 0]) [] (-5) = Return ids
    /\ length ids = kept 1 (-5)
    /\ ((-5 <= - Z.of_nat 1)%Z -> ids = []).
Proof.
  apply (@search_length_any_limit
           (store_of [mkRow 1 Null (Json [1%float]) 0]) unit_encoder [] (-5));
    [reflexivity|reflexivity|repeat constructor].
Defined.

(** The first result is a best match: when every stored record can be
    scored, no score is NaN, the table is not empty and [limit >= 1],
    the id [search] returns first belongs to a record whose score is at
    least the score of every stored record. *)
Theorem search_first_is_best (self : VectorStore) (m : encoder)
    (query : str) (limit : Z) :
  VECTORS_ENABLED self = true -> model self = Some m ->
  Forall (fun r => rankable (m query) r = true) (embeddings self) ->
  no_nan (scored (m query) (embeddings self)) ->
  embeddings self <> [] -> (1 <= limit)%Z ->
  exists best rest,
    search self query limit = Return (paper_id best :: rest)
    /\ In best (embeddings self)
    /\ forall r, In r (embeddings self) ->
         (record_score (m query) r <=? record_score (m query) best)%float = true.
Proof.
  intros E M R N NE L.
  rewrite (search_rankable self query limit E M R), slice_take by lia.
  pose proof (sort_desc_descending N) as D.
  pose proof (sort_desc_perm (scored (m query) (embeddings self))) as P.
  destruct (sort_desc (scored (m query) (embeddings self))) as [|p ranked] eqn:S.
  - apply Permutation_nil in P. unfold scored in P.
    apply map_eq_nil in P. contradiction.
  - assert (Ip : In p (scored (m query) (embeddings self)))
      by (apply (Permutation_in _ P); left; reflexivity).
    unfold scored in Ip. apply in_map_iff in Ip. destruct Ip as (best & <- & Ib).
    exists best. destruct (Z.to_nat limit) as [|n] eqn:Zl; [lia|].
    exists (map fst (firstn n ranked)). split; [reflexivity|]. split; [exact Ib|].
    intros r Ir.
    assert (I : In (paper_id r, record_score (m query) r)
                   ((paper_id best, record_score (m query) best) :: ranked)).
    { apply (Permutation_in _ (Permutation_sym P)). unfold scored.
      apply in_map_iff. exists r. split; [reflexivity|exact Ir]. }
    inversion D as [|? ? _ Hd]; subst.
    destruct I as [I|I].
    + injection I as _ I. rewrite I. apply leb_refl.
      unfold no_nan in N. rewrite Forall_forall in N.
      apply (N (paper_id r, record_score (m query) r)).
      unfold scored. apply in_map_iff. exists r. split; [reflexivity|exact Ir].
    + rewrite Forall_forall in Hd. exact (Hd _ I).
Qed.

Lemma search_first_is_best_witness :
  exists best rest,
    search (store_of [mkRow 1 Null (Json [(-1)%float]) 0;
                      mkRow 3 (Json [1%float]) Null 0]) [] 1
    = Return (paper_id best :: rest)
    /\ In best [mkRow 1 Null (Json [(-1)%float]) 0; mkRow 3 (Json [1%float]) Null 0]
    /\ forall r,
         In r [mkRow 1 Null (Json [(-1)%float]) 0; mkRow 3 (Json [1%float]) Null 0] ->
         (record_score [1%float] r <=? record_score [1%float] best)%float = true.
Proof.
  apply (@search_first_is_best
           (store_of [mkRow 1 Null (Json [(-1)%float]) 0;
                      mkRow 3 (Json [1%float]) Null 0]) unit_encoder [] 1);
    try reflexivity; try discriminate; repeat constructor.
Defined.

(** ** Symmetry of the cosine *)

Lemma mul_comm (x y : float) : (x * y)%float = (y * x)%float.
Proof.
  apply Prim2SF_inj. rewrite !mul_spec. unfold SF64mul, SFmul.
  destruct (Prim2SF x) as [sx|sx| |sx mx ex], (Prim2SF y) as [sy|sy| |sy my ey];
    try reflexivity; rewrite (xorb_comm sx sy); try reflexivity.
  rewrite (Pos.mul_comm mx my), (Z.add_comm ex ey). reflexivity.
Qed.

Lemma dot_sum_comm (a b : list float) : Np.dot_sum a b = Np.dot_sum b a.
Proof.
  unfold Np.dot_sum. generalize 0%float as acc. revert b.
  induction a as [|x a IH]; intros [|y b] acc; simpl; try reflexivity.
  rewrite (mul_comm x y). apply IH.
Qed.

(** [_cosine_similarity] does not depend on the order of its two
    arguments: it raises for the same pairs of arrays (those of
    different sizes) and returns the same number otherwise. *)
Theorem cosine_similarity_symmetric (a b : list float) :
  cosine_similarity a b = cosine_similarity b a.
Proof.
  unfold cosine_similarity, Np.dot.
  rewrite (Nat.eqb_sym (length a) (length b)).
  destruct (Nat.eqb (length b) (length a)); simpl; [|reflexivity].
  rewrite (dot_sum_comm a b), (mul_comm (Np.norm a) (Np.norm b)). reflexivity.
Qed.

(** ** Records without a title vector *)

(** A record with an empty title vector never scores below 0 and never
    scores NaN: its score is 0 or its content similarity, whichever is
    larger, and 0 when that similarity is NaN (an all-zero content
    vector). *)
Theorem untitled_record_score_nonnegative (q : list float) (r : row) :
  rankable q r = true -> vector_of (title_vector r) = [] ->
  score_row q r = Return (paper_id r, record_score q r)
  /\ (0 <=? record_score q r)%float = true
  /\ is_nan (record_score q r) = false.
Proof.
  intros R T. split; [exact (@score_row_rankable q r R)|].
  assert (G : (0 <=? record_score q r)%float = true).
  { unfold record_score. rewrite T. unfold title_term. simpl.
    unfold Py.max.
    destruct (0 <? content_term q (vector_of (content_vector r)))%float eqn:E.
    - apply ltb_leb, E.
    - reflexivity. }
  split; [exact G|].
  apply is_nan_false. apply leb_iff in G. tauto.
Qed.

Lemma untitled_record_score_nonnegative_witness :
  score_row [1%float] (mkRow 4 Null (Json [0%float]) 0)
  = Return (4%Z, record_score [1%float] (mkRow 4 Null (Json [0%float]) 0)).
Proof.
  exact (proj1 (@untitled_record_score_nonnegative [1%float]
                  (mkRow 4 Null (Json [0%float]) 0) eq_refl eq_refl)).
Defined.

(** ** [search] and [created_at] *)

(** [search] never looks at [created_at]: two tables whose records
    agree on [paper_id], [title_vector] and [content_vector], row by
    row, give the same results for every query and limit. *)
Theorem search_ignores_created_at (enabled : bool) (m : option encoder)
    (rows rows' : table) (query : str) (limit : Z) :
  Forall2 same_record rows rows' ->
  search (mkStore enabled m rows) query limit
  = search (mkStore enabled m rows') query limit.
Proof.
  intros H. unfold search. simpl.
  destruct enabled; [|reflexivity].
  destruct m as [enc|]; [|reflexivity].
  unfold ranking. rewrite (@for_each_same_record (enc query) rows rows' H).
  destruct H; reflexivity.
Qed.

Lemma search_ignores_created_at_witness :
  search (mkStore true (Some unit_encoder) [mkRow 1 Null (Json [1%float]) 100])
         [] 10
  = search (mkStore true (Some unit_encoder) [mkRow 1 Null (Json [1%float]) 200])
           [] 10.
Proof.
  apply (@search_ignores_created_at true (Some unit_encoder)
           [mkRow 1 Null (Json [1%float]) 100]
           [mkRow 1 Null (Json [1%float]) 200] [] 10).
  repeat constructor.
Defined.

(** ** From indexing to searching *)

Section FixedDimension.

Variables (m : encoder) (d : nat).
Hypothesis Hm : fixed_dimension m d.

Lemma title_embedding_dimension (title : str) :
  cell_of_dimension d (json_dumps (title_embedding m title)).
Proof.
  unfold cell_of_dimension, title_embedding. simpl. split; [reflexivity|].
  destruct (truthy title); [right; apply Hm|left; reflexivity].
Qed.

Lemma content_embedding_dimension (content : str) :
  cell_of_dimension d (json_dumps (content_embedding m content)).
Proof.
  unfold cell_of_dimension, content_embedding. simpl. split; [reflexivity|].
  destruct (truthy (content_sample content)); [right; apply Hm|left; reflexivity].
Qed.

Lemma insert_or_replace_dimension (now pid : Z) (tv cv : cell) (t : table) :
  cell_of_dimension d tv -> cell_of_dimension d cv ->
  table_of_dimension d t -> table_of_dimension d (insert_or_replace now pid tv cv t).
Proof.
  unfold table_of_dimension. intros Ht Hc H.
  rewrite Forall_forall in *. intros r Hr.
  apply insert_row_in in Hr. destruct Hr as [->|Hr].
  - simpl. split; assumption.
  - apply filter_In in Hr. apply H, Hr.
Qed.

Lemma step_dimension (self : VectorStore) (c : call) :
  model self = Some m ->
  table_of_dimension d (embeddings self) ->
  table_of_dimension d (embeddings (step self c)).
Proof.
  intros M H. rewrite step_eq, M.
  destruct (VECTORS_ENABLED self && int64 (call_paper_id c)); [|exact H].
  simpl. apply insert_or_replace_dimension;
    [apply title_embedding_dimension|apply content_embedding_dimension|exact H].
Qed.

Lemma table_of_dimension_rankable (q : list float) (t : table) :
  length q = d -> table_of_dimension d t ->
  Forall (fun r => rankable q r = true) t.
Proof.
  intros Hq H. eapply Forall_impl; [|exact H].
  intros r [[Rt Dt] [Rc Dc]]. unfold rankable, fits.
  rewrite Rt, Rc. simpl.
  assert (F : forall v : list float, v = [] \/ length v = d ->
                        negb (truthy v) || Nat.eqb (length q) (length v) = true).
  { intros v [->|E]; [reflexivity|].
    rewrite Hq, E, Nat.eqb_refl. apply orb_true_r. }
  rewrite (F _ Dt), (F _ Dc). reflexivity.
Qed.

End FixedDimension.

Lemma step_provider (self : VectorStore) (c : call) :
  VECTORS_ENABLED (step self c) = VECTORS_ENABLED self
  /\ model (step self c) = model self.
Proof.
  rewrite step_eq.
  destruct (model self) as [m|] eqn:M; [|split; [reflexivity|exact M]].
  destruct (VECTORS_ENABLED self) eqn:E; simpl;
    [|split; [exact E|exact M]].
  destruct (int64 (call_paper_id c)); simpl; split; auto.
Qed.

Lemma select_nonempty_in (pid : Z) (t : table) :
  select pid t <> [] -> In pid (map paper_id t).
Proof.
  unfold select. induction t as [|r t IH]; simpl; [congruence|].
  destruct (Z.eqb_spec (paper_id r) pid) as [E|E]; [left; exact E|].
  intros H. right. apply IH, H.
Qed.

Lemma step_indexed (self : VectorStore) (c : call) (pid : Z) :
  VECTORS_ENABLED self = true -> model self <> None ->
  (pid = call_paper_id c /\ int64 pid = true)
  \/ select pid (embeddings self) <> [] ->
  select pid (embeddings (step self c)) <> [].
Proof.
  intros E M H. destruct (model self) as [m|] eqn:Hm; [|congruence].
  rewrite step_eq, Hm, E. simpl.
  destruct (Z.eq_dec pid (call_paper_id c)) as [->|N].
  - destruct (int64 (call_paper_id c)) eqn:I.
    + simpl. rewrite select_insert_or_replace. discriminate.
    + destruct H as [[_ H]|H]; [discriminate H|exact H].
  - destruct (int64 (call_paper_id c)); [|destruct H as [[H _]|H]; [contradiction|exact H]].
    simpl. rewrite select_insert_or_replace_other by exact N.
    destruct H as [[H _]|H]; [contradiction|exact H].
Qed.

Lemma run_indexed (calls : list call) (self : VectorStore) (pid : Z) :
  VECTORS_ENABLED self = true -> model self <> None ->
  (In pid (map call_paper_id calls) /\ int64 pid = true)
  \/ select pid (embeddings self) <> [] ->
  select pid (embeddings (run self calls)) <> [].
Proof.
  unfold run. revert self.
  induction calls as [|c calls IH]; simpl; intros self E M H.
  - destruct H as [[[] _]|H]; exact H.
  - destruct (step_provider self c) as [E' M'].
    apply IH; [congruence|congruence|].
    destruct H as [[[H|H] I]|H].
    + right. apply step_indexed; auto.
    + left. split; assumption.
    + right. apply step_indexed; auto.
Qed.

Lemma run_dimension (m : encoder) (d : nat) (calls : list call) (self : VectorStore) :
  fixed_dimension m d -> model self = Some m ->
  table_of_dimension d (embeddings self) ->
  table_of_dimension d (embeddings (run self calls)).
Proof.
  intros Hm. unfold run. revert self.
  induction calls as [|c calls IH]; simpl; intros self M H; [exact H|].
  destruct (step_provider self c) as [_ M'].
  apply IH; [congruence|]. apply (step_dimension Hm); assumption.
Qed.

(** Indexing then searching. With a model whose vectors all have the
    same size, on a table that was written for that size (a fresh one
    in particular), every paper that [add_embedding] could store is
    found: after any sequence of calls, a search whose limit is at
    least the number of records returns the [paper_id]s of all stored
    records, among them the id of every call of the sequence whose
    [paper_id] is a signed 64-bit integer (the other calls returned
    [False] and stored nothing). *)
Theorem indexed_papers_are_found (self : VectorStore) (m : encoder) (d : nat)
    (calls : list call) (query : str) (limit : Z) :
  VECTORS_ENABLED self = true -> model self = Some m ->
  fixed_dimension m d ->
  table_of_dimension d (embeddings self) ->
  (Z.of_nat (length (embeddings (run self calls))) <= limit)%Z ->
  exists ids,
    search (run self calls) query limit = Return ids
    /\ Permutation ids (map paper_id (embeddings (run self calls)))
    /\ forall c, In c calls -> int64 (call_paper_id c) = true ->
                 In (call_paper_id c) ids.
Proof.
  intros E M Hm H L.
  assert (E' : VECTORS_ENABLED (run self calls) = true
               /\ model (run self calls) = Some m).
  { clear L H. unfold run. revert self E M.
    induction calls as [|c calls IH]; simpl; intros self E M; [split; assumption|].
    destruct (step_provider self c) as [E1 M1]. apply IH; congruence. }
  destruct E' as [E' M'].
  pose proof (run_dimension calls self Hm M H) as H'.
  pose proof (table_of_dimension_rankable (m query) (Hm query) H') as R.
  rewrite (search_rankable (run self calls) query limit E' M' R).
  rewrite slice_all
    by (unfold len; rewrite sort_desc_length; unfold scored;
        rewrite length_map; exact L).
  eexists. split; [reflexivity|].
  assert (P : Permutation
                (map fst (sort_desc (scored (m query) (embeddings (run self calls)))))
                (map paper_id (embeddings (run self calls)))).
  { eapply perm_trans; [apply Permutation_map, sort_desc_perm|].
    unfold scored. rewrite map_map. simpl. apply Permutation_refl. }
  split; [exact P|].
  intros c Hc Ic. apply (Permutation_in _ (Permutation_sym P)).
  apply select_nonempty_in, run_indexed; [exact E|congruence|].
  left. split; [apply in_map, Hc|exact Ic].
Qed.

Lemma indexed_papers_are_found_witness :
  exists ids,
    search (run (store_of []) [mkCall 1 8 ["a"%char] []; mkCall 2 3 [] ["b"%char]])
           ["q"%char] 10 = Return ids
    /\ Permutation ids
         (map paper_id (embeddings
            (run (store_of []) [mkCall 1 8 ["a"%char] []; mkCall 2 3 [] ["b"%char]])))
    /\ forall c, In c [mkCall 1 8 ["a"%char] []; mkCall 2 3 [] ["b"%char]] ->
                 int64 (call_paper_id c) = true ->
                 In (call_paper_id c) ids.
Proof.
  apply (@indexed_papers_are_found (store_of []) unit_encoder 1
           [mkCall 1 8 ["a"%char] []; mkCall 2 3 [] ["b"%char]] ["q"%char] 10).
  - reflexivity.
  - reflexivity.
  - intros text. reflexivity.
  - constructor.
  - simpl. lia.
Defined.

(** ** Ties and empty texts *)

Lemma tied_with_all (k : float) (l : list (Z * float)) :
  Forall (fun x => (snd x =? k)%float = true) l -> tied_with k l = l.
Proof.
  unfold tied_with. induction 1 as [|x l Hx _ IH]; simpl; [reflexivity|].
  rewrite Hx, IH. reflexivity.
Qed.

(** When all stored records can be scored and get the same score (as
    they do when none of them has a vector), [search] returns the
    [paper_id]s in scan order, cut at the limit. *)
Theorem search_all_tied_keeps_scan_order (self : VectorStore) (m : encoder)
    (query : str) (limit : Z) (k : float) :
  VECTORS_ENABLED self = true -> model self = Some m ->
  Forall (fun r => rankable (m query) r = true) (embeddings self) ->
  Forall (fun r => (record_score (m query) r =? k)%float = true) (embeddings self) ->
  (0 <= limit)%Z ->
  search self query limit
  = Return (firstn (Z.to_nat limit) (map paper_id (embeddings self))).
Proof.
  intros E M R T L.
  rewrite (search_rankable self query limit E M R), slice_take by exact L.
  assert (Ts : Forall (fun x => (snd x =? k)%float = true)
                 (scored (m query) (embeddings self))).
  { unfold scored. rewrite Forall_map. exact T. }
  assert (S : sort_desc (scored (m query) (embeddings self))
              = scored (m query) (embeddings self)).
  { rewrite <- (tied_with_all Ts) at 2. rewrite <- sort_desc_tied.
    symmetry. apply tied_with_all.
    exact (Permutation_Forall (Permutation_sym (sort_desc_perm _)) Ts). }
  rewrite S, <- firstn_map. unfold scored. rewrite map_map. reflexivity.
Qed.

Lemma search_all_tied_keeps_scan_order_witness :
  search (store_of [mkRow 2 Null Null 0; mkRow 5 (Json []) Null 0; mkRow 9 Null Null 0])
         [] 2
  = Return (firstn (Z.to_nat 2) [2%Z; 5%Z; 9%Z]).
Proof.
  apply (@search_all_tied_keeps_scan_order
           (store_of [mkRow 2 Null Null 0; mkRow 5 (Json []) Null 0; mkRow 9 Null Null 0])
           unit_encoder [] 2 0%float);
    try reflexivity; try discriminate; repeat constructor.
Defined.

(** Indexing a paper whose title and content are both empty, under a
    [paper_id] that is a signed 64-bit integer, succeeds without
    calling the encoder: the record it stores holds two empty vectors,
    and it scores exactly 0 against every query vector, of whatever
    size. *)
Theorem add_embedding_empty_texts (self : VectorStore) (m : encoder)
    (now pid : Z) (q : list float) :
  VECTORS_ENABLED self = true -> model self = Some m -> int64 pid = true ->
  fst (add_embedding self now pid [] []) = Return true
  /\ select pid (embeddings (snd (add_embedding self now pid [] [])))
     = [mkRow pid (Json []) (Json []) now]
  /\ Forall (fun r => score_row q r = Return (pid, 0%float))
       (select pid (embeddings (snd (add_embedding self now pid [] [])))).
Proof.
  intros E M I.
  rewrite (@add_embedding_available self m now pid [] [] E M I). simpl.
  assert (S : select pid
                (insert_or_replace now pid (json_dumps (title_embedding m []))
                   (json_dumps (content_embedding m [])) (embeddings self))
              = [mkRow pid (Json []) (Json []) now])
    by apply select_insert_or_replace.
  rewrite S. repeat split. constructor; [reflexivity|constructor].
Qed.

Lemma add_embedding_empty_texts_witness :
  fst (add_embedding (store_of [mkRow 1 Garbled Null 0]) 7 1 [] []) = Return true.
Proof.
  exact (proj1 (@add_embedding_empty_texts (store_of [mkRow 1 Garbled Null 0])
                  unit_encoder 7 1 [2%float; 3%float] eq_refl eq_refl eq_refl)).
Defined.
